(** * Flashcards: card editor history and print pagination

    A shallow embedding of the two algorithmic parts of the flashcards
    application:

    - [PrintPreview]: [calculateLayout] and [generatePrintPages] of the
      print preview component;
    - [CardEditor]: the element operations and the undo/redo history of
      the card editor component.

    JavaScript numbers are modelled by [JS.number] (integers plus the
    three non-finite values that integer division and multiplication can
    produce); element positions and pointer coordinates, which the editor
    subtracts as they come from the browser, are IEEE doubles
    ([PrimFloat.float]).  The one object that the editor mutates in place, its
    [card] prop, is kept apart from the values that are never written
    after their creation, so that a history entry aliasing it is
    visible as such. *)

From Stdlib Require Import ZArith Lia PrimFloat.
From stdpp Require Import base option list strings pretty.

Local Open Scope Z_scope.

(** ** JavaScript numbers and array slicing *)

Module JS.

(** The numbers that occur in the layout computation.  All inputs are
    integers (table constants, INTEGER columns of the decks table, array
    lengths); the only division is wrapped in [Math.floor], so a finite
    result is again an integer.  Division by zero and products with an
    infinite factor give the non-finite values.  Signed zero is not
    distinguished: no operation used here tells [-0] from [0]. *)
Inductive number : Type :=
  | Int (z : Z)
  | PosInf
  | NegInf
  | NaN.

Global Instance number_eq_dec : EqDecision number.
Proof. solve_decision. Defined.

(** [Math.floor(a / b)] for integers [a] and [b]. *)
Definition floor_div (a b : Z) : number :=
  if b =? 0 then
    if 0 <? a then PosInf else if a <? 0 then NegInf else NaN
  else Int (a / b).

(** [x * y] *)
Definition mul (x y : number) : number :=
  match x, y with
  | NaN, _ | _, NaN => NaN
  | Int a, Int b => Int (a * b)
  | Int a, PosInf | PosInf, Int a =>
      if 0 <? a then PosInf else if a <? 0 then NegInf else NaN
  | Int a, NegInf | NegInf, Int a =>
      if 0 <? a then NegInf else if a <? 0 then PosInf else NaN
  | PosInf, PosInf | NegInf, NegInf => PosInf
  | PosInf, NegInf | NegInf, PosInf => NegInf
  end.

(** [x + y] *)
Definition add (x y : number) : number :=
  match x, y with
  | NaN, _ | _, NaN => NaN
  | Int a, Int b => Int (a + b)
  | PosInf, NegInf | NegInf, PosInf => NaN
  | PosInf, _ | _, PosInf => PosInf
  | NegInf, _ | _, NegInf => NegInf
  end.

(** [x < y] *)
Definition ltb (x y : number) : bool :=
  match x, y with
  | NaN, _ | _, NaN => false
  | Int a, Int b => a <? b
  | NegInf, NegInf => false
  | NegInf, _ => true
  | _, NegInf => false
  | PosInf, _ => false
  | Int _, PosInf => true
  end.

(** [x >= y] *)
Definition geb (x y : number) : bool :=
  match x, y with
  | NaN, _ | _, NaN => false
  | Int a, Int b => b <=? a
  | PosInf, _ => true
  | _, NegInf => true
  | NegInf, _ => false
  | Int _, PosInf => false
  end.

(** The index clamping of [Array.prototype.slice]: the argument goes
    through ToIntegerOrInfinity ([NaN] becomes 0), a negative index counts
    from the end, and the result is clamped to [0 .. len]. *)
Definition relative_index (len : nat) (n : number) : nat :=
  match n with
  | NaN => 0%nat
  | NegInf => 0%nat
  | PosInf => len
  | Int z =>
      if z <? 0 then Z.to_nat (Z.max (Z.of_nat len + z) 0)
      else Z.to_nat (Z.min z (Z.of_nat len))
  end.

(** [l.slice(start, end)] *)
Definition slice {A} (l : list A) (start end_ : number) : list A :=
  let k := relative_index (length l) start in
  let final := relative_index (length l) end_ in
  take (final - k) (drop k l).

End JS.

(** ** The shared data model (the application's type declarations) *)

Module Types.

Inductive ElementType := text | image | shape.

Global Instance ElementType_eq_dec : EqDecision ElementType.
Proof. solve_decision. Defined.

(** [CardElement]; optional fields are options.  [fontStyle] is written
    by the editor's italic button although the interface does not list
    it.  [x] and [y] are doubles: a drag computes them from pointer
    coordinates. *)
Record CardElement := {
  id : string;
  type : ElementType;
  content : string;
  x : float;
  y : float;
  width : option Z;
  height : option Z;
  fontSize : option Z;
  fontFamily : option string;
  fontWeight : option string;
  fontStyle : option string;
  color : option string;
  backgroundColor : option string;
  rotation : option Z;
  zIndex : option Z
}.

Record CardContent := {
  elements : list CardElement;
  contentBackgroundColor : option string;
  backgroundImage : option string
}.

Record Card := {
  card_id : string;
  deck_id : string;
  title : option string;
  front_content : CardContent;
  back_content : CardContent;
  position : Z;
  created_at : string;
  updated_at : string
}.

Inductive CardSize := size_3x5 | size_4x6 | size_5x8 | size_custom.

Record Deck := {
  deck_name : string;
  card_size : CardSize;
  custom_width : option Z;
  custom_height : option Z
}.

End Types.

(** ** The print preview: layout and pagination *)

Module PrintPreview.
Import Types.

Inductive PaperSize := letter | a4 | legal.
Inductive Orientation := portrait | landscape.
Inductive Margins := normal | narrow.

(** The [printSettings] state.  Its [cardsPerPage] entry (initially 6) is
    called [settingsCardsPerPage] here, the name [cardsPerPage] being
    taken by the layout record below. *)
Record PrintSettings := {
  cardSize : CardSize;
  settingsCardsPerPage : Z;
  includeBack : bool;
  paperSize : PaperSize;
  orientation : Orientation;
  margins : Margins
}.

(** The state the component starts with. *)
Definition initialSettings (deck : Deck) : PrintSettings :=
  {| cardSize := card_size deck;
     settingsCardsPerPage := 6;
     includeBack := true;
     paperSize := letter;
     orientation := portrait;
     margins := normal |}.

Record Dimensions := { dim_width : Z; dim_height : Z }.

(** [value || fallback] for an optional number: [undefined], [null] and
    [0] are falsy. *)
Definition or_default (value : option Z) (fallback : Z) : Z :=
  match value with
  | Some v => if v =? 0 then fallback else v
  | None => fallback
  end.

Definition cardSizes (deck : Deck) (key : CardSize) : Dimensions :=
  match key with
  | size_3x5 => {| dim_width := 216; dim_height := 360 |}
  | size_4x6 => {| dim_width := 288; dim_height := 432 |}
  | size_5x8 => {| dim_width := 360; dim_height := 576 |}
  | size_custom =>
      {| dim_width := or_default (custom_width deck) 216;
         dim_height := or_default (custom_height deck) 360 |}
  end.

Definition paperSizes (key : PaperSize) : Dimensions :=
  match key with
  | letter => {| dim_width := 612; dim_height := 792 |}
  | a4 => {| dim_width := 595; dim_height := 842 |}
  | legal => {| dim_width := 612; dim_height := 1008 |}
  end.

Definition margin (s : PrintSettings) : Z :=
  match margins s with normal => 36 | narrow => 18 end.

Definition availableWidth (s : PrintSettings) : Z :=
  dim_width (paperSizes (paperSize s)) - margin s * 2.

Definition availableHeight (s : PrintSettings) : Z :=
  dim_height (paperSizes (paperSize s)) - margin s * 2.

Record Layout := {
  cardsPerRow : JS.number;
  rowsPerPage : JS.number;
  cardsPerPage : JS.number
}.

Definition calculateLayout (deck : Deck) (s : PrintSettings) : Layout :=
  let cardSize := cardSizes deck (cardSize s) in
  let cardsPerRow := JS.floor_div (availableWidth s) (dim_width cardSize + 18) in
  let rowsPerPage := JS.floor_div (availableHeight s) (dim_height cardSize + 18) in
  let cardsPerPage := JS.mul cardsPerRow rowsPerPage in
  {| cardsPerRow := cardsPerRow;
     rowsPerPage := rowsPerPage;
     cardsPerPage := cardsPerPage |}.

Inductive PageType := front | back.

Record Page := { page_type : PageType; cards : list Card }.

(** What a run of the page loop amounts to within a given number of
    iterations: it has left the loop with the pages pushed, or it is still
    inside the loop, having pushed the pages shown. *)
Inductive outcome :=
  | Returned (pages : list Page)
  | StillLooping (pages : list Page).

(** [for (let i = ...; i < cards.length; i += cardsPerPage)
       pages.push({ type, cards: cards.slice(i, i + cardsPerPage) })],
    run for at most [fuel] tests of the loop condition. *)
Fixpoint page_loop (fuel : nat) (side : PageType) (deck_cards : list Card)
    (perPage : JS.number) (i : JS.number) (pages : list Page) : outcome :=
  match fuel with
  | O => StillLooping pages
  | S fuel' =>
      if JS.ltb i (JS.Int (Z.of_nat (length deck_cards))) then
        page_loop fuel' side deck_cards perPage (JS.add i perPage)
          (pages ++ [ {| page_type := side;
                         cards := JS.slice deck_cards i (JS.add i perPage) |} ])
      else Returned pages
  end.

Definition generatePrintPages (fuel : nat) (deck : Deck)
    (deck_cards : list Card) (s : PrintSettings) : outcome :=
  let perPage := cardsPerPage (calculateLayout deck s) in
  match page_loop fuel front deck_cards perPage (JS.Int 0) [] with
  | StillLooping pages => StillLooping pages
  | Returned pages =>
      if includeBack s then
        page_loop fuel back deck_cards perPage (JS.Int 0) pages
      else Returned pages
  end.

(** Two settings that agree on every entry but [orientation]. *)
Definition differ_only_in_orientation (s1 s2 : PrintSettings) : Prop :=
  cardSize s1 = cardSize s2 /\
  settingsCardsPerPage s1 = settingsCardsPerPage s2 /\
  includeBack s1 = includeBack s2 /\
  paperSize s1 = paperSize s2 /\
  margins s1 = margins s2.

(** The pagination as the specification words it: the cards cut into
    consecutive chunks of [k], the last one possibly shorter. *)
Definition chunk_count (n k : nat) : nat := ((n + k - 1) / k)%nat.

Definition chunk_at {A} (k : nat) (l : list A) (j : nat) : list A :=
  take k (drop (j * k) l).

Definition chunks {A} (k : nat) (l : list A) : list (list A) :=
  chunk_at k l <$> seq 0 (chunk_count (length l) k).

(** The pages of one side, one per chunk. *)
Definition chunk_pages (side : PageType) (k : nat) (l : list Card) : list Page :=
  (fun c => {| page_type := side; cards := c |}) <$> chunks k l.

(** The handler of the "Include back sides" checkbox:
    [setPrintSettings({ ...printSettings, includeBack: e.target.checked })]. *)
Definition setIncludeBack (b : bool) (s : PrintSettings) : PrintSettings :=
  {| cardSize := cardSize s;
     settingsCardsPerPage := settingsCardsPerPage s;
     includeBack := b;
     paperSize := paperSize s;
     orientation := orientation s;
     margins := margins s |}.

(** The handler of the margins select. *)
Definition setMargins (m : Margins) (s : PrintSettings) : PrintSettings :=
  {| cardSize := cardSize s;
     settingsCardsPerPage := settingsCardsPerPage s;
     includeBack := includeBack s;
     paperSize := paperSize s;
     orientation := orientation s;
     margins := m |}.

(** The number in a page's heading:
    [Math.floor(pageIndex / (printSettings.includeBack ? 2 : 1)) + 1],
    [pageIndex] being the page's index in the list of all pages. *)
Definition pageNumber (s : PrintSettings) (pageIndex : nat) : Z :=
  Z.of_nat pageIndex / (if includeBack s then 2 else 1) + 1.

(** The heading's first words:
    [page.type === 'front' ? 'Front Sides' : 'Back Sides']. *)
Definition pageTitle (p : Page) : string :=
  match page_type p with front => "Front Sides" | back => "Back Sides" end.

(** The same page for another side. *)
Definition retag (side : PageType) (p : Page) : Page :=
  {| page_type := side; cards := cards p |}.

(** The capacities with which the page loop moves forward: a positive
    step, or one that makes the loop condition false after the first
    page ([Infinity], [NaN]). *)
Definition advancing (perPage : JS.number) : bool :=
  match perPage with
  | JS.Int k => 0 <? k
  | JS.PosInf | JS.NaN => true
  | JS.NegInf => false
  end.

(** A function on page lists applied to what a run has pushed. *)
Definition map_outcome (f : list Page -> list Page) (o : outcome) : outcome :=
  match o with
  | Returned pages => Returned (f pages)
  | StillLooping pages => StillLooping (f pages)
  end.

(** Loop counters from which a step that is not [advancing] never
    reaches the number of cards. *)
Definition not_positive (i : JS.number) : bool :=
  match i with
  | JS.Int z => z <=? 0
  | JS.NegInf => true
  | JS.PosInf | JS.NaN => false
  end.

End PrintPreview.

(** ** The card editor: element operations and the undo/redo history *)

Module CardEditor.
Import Types.

Inductive Side := front | back.

Global Instance Side_eq_dec : EqDecision Side.
Proof. solve_decision. Defined.

(** References to [Card] objects.  The component writes into exactly one
    object after its creation: the one its [card] prop refers to (every
    [Object.assign(card, ...)]).  All other [Card] objects come from a
    spread expression [{...card, ...}] and are never written again, so a
    reference to one of them is represented by the object's value, while
    a reference to the prop object stays a reference: what it yields
    depends on the moment it is read. *)
Inductive CardRef :=
  | the_card
  | object (value : Card).

(** The component's state: the [card] prop object, the [useState] cells,
    and [currentContent], the constant that each render computes from
    [currentSide] and the card and that the handlers of that render
    close over. *)
Record State := {
  card : Card;
  currentSide : Side;
  selectedElement : option string;
  isDragging : bool;
  dragOffset : float * float;
  history : list CardRef;
  historyIndex : nat;
  currentContent : CardContent
}.

Definition deref (s : State) (r : CardRef) : Card :=
  match r with
  | the_card => card s
  | object value => value
  end.

Definition sideContent (side : Side) (c : Card) : CardContent :=
  match side with
  | front => front_content c
  | back => back_content c
  end.

(** [{...c, [side === 'front' ? 'front_content' : 'back_content']: cc}] *)
Definition withSideContent (side : Side) (c : Card) (cc : CardContent) : Card :=
  {| card_id := card_id c;
     deck_id := deck_id c;
     title := title c;
     front_content := match side with front => cc | back => front_content c end;
     back_content := match side with front => back_content c | back => cc end;
     position := position c;
     created_at := created_at c;
     updated_at := updated_at c |}.

(** [{...cc, elements: els}] *)
Definition withElements (cc : CardContent) (els : list CardElement) : CardContent :=
  {| elements := els;
     contentBackgroundColor := contentBackgroundColor cc;
     backgroundImage := backgroundImage cc |}.

(** State setters and the in-place write to the prop object. *)
Definition assignCard (c : Card) (s : State) : State :=
  {| card := c; currentSide := currentSide s;
     selectedElement := selectedElement s; isDragging := isDragging s;
     dragOffset := dragOffset s; history := history s;
     historyIndex := historyIndex s; currentContent := currentContent s |}.

Definition setCurrentSide (side : Side) (s : State) : State :=
  {| card := card s; currentSide := side;
     selectedElement := selectedElement s; isDragging := isDragging s;
     dragOffset := dragOffset s; history := history s;
     historyIndex := historyIndex s; currentContent := currentContent s |}.

Definition setSelectedElement (sel : option string) (s : State) : State :=
  {| card := card s; currentSide := currentSide s;
     selectedElement := sel; isDragging := isDragging s;
     dragOffset := dragOffset s; history := history s;
     historyIndex := historyIndex s; currentContent := currentContent s |}.

Definition setIsDragging (b : bool) (s : State) : State :=
  {| card := card s; currentSide := currentSide s;
     selectedElement := selectedElement s; isDragging := b;
     dragOffset := dragOffset s; history := history s;
     historyIndex := historyIndex s; currentContent := currentContent s |}.

Definition setDragOffset (off : float * float) (s : State) : State :=
  {| card := card s; currentSide := currentSide s;
     selectedElement := selectedElement s; isDragging := isDragging s;
     dragOffset := off; history := history s;
     historyIndex := historyIndex s; currentContent := currentContent s |}.

Definition setHistory (h : list CardRef) (s : State) : State :=
  {| card := card s; currentSide := currentSide s;
     selectedElement := selectedElement s; isDragging := isDragging s;
     dragOffset := dragOffset s; history := h;
     historyIndex := historyIndex s; currentContent := currentContent s |}.

Definition setHistoryIndex (i : nat) (s : State) : State :=
  {| card := card s; currentSide := currentSide s;
     selectedElement := selectedElement s; isDragging := isDragging s;
     dragOffset := dragOffset s; history := history s;
     historyIndex := i; currentContent := currentContent s |}.

(** A render: [currentContent] is computed anew.  A handler that calls a
    state setter is followed by one; [updateElement], which only writes
    into the card, is not. *)
Definition render (s : State) : State :=
  {| card := card s; currentSide := currentSide s;
     selectedElement := selectedElement s; isDragging := isDragging s;
     dragOffset := dragOffset s; history := history s;
     historyIndex := historyIndex s;
     currentContent := sideContent (currentSide s) (card s) |}.

(** The state at mount: [useState<Card[]>([card])] puts the prop object
    itself at index 0 of the history. *)
Definition init (c : Card) : State :=
  {| card := c; currentSide := front; selectedElement := None;
     isDragging := false; dragOffset := (0%float, 0%float);
     history := [the_card]; historyIndex := 0%nat;
     currentContent := front_content c |}.

Definition addToHistory (newCard : CardRef) (s : State) : State :=
  let newHistory := take (historyIndex s + 1) (history s) ++ [newCard] in
  setHistoryIndex (length newHistory - 1) (setHistory newHistory s).

(** [Object.assign(card, source)] where [source] was read from the
    history; an [undefined] source is skipped. *)
Definition assignFrom (source : option CardRef) (s : State) : State :=
  match source with
  | Some r => assignCard (deref s r) s
  | None => s
  end.

Definition undo (s : State) : State :=
  if bool_decide (0 < historyIndex s)%nat then
    render (assignFrom (history s !! (historyIndex s - 1)%nat)
              (setHistoryIndex (historyIndex s - 1) s))
  else s.

Definition redo (s : State) : State :=
  if bool_decide (Z.of_nat (historyIndex s) < Z.of_nat (length (history s)) - 1) then
    render (assignFrom (history s !! (historyIndex s + 1)%nat)
              (setHistoryIndex (historyIndex s + 1) s))
  else s.

(** The [disabled] attributes of the undo and redo buttons, negated. *)
Definition canUndo (s : State) : bool :=
  negb (bool_decide (historyIndex s = 0%nat)).

Definition canRedo (s : State) : bool :=
  negb (bool_decide (Z.of_nat (historyIndex s) = Z.of_nat (length (history s)) - 1)).

(** [`element-${Date.now()}`], [now] being the clock reading. *)
Definition elementIdAt (now : Z) : string := "element-" +:+ pretty now.

(** [shapeType || 'rectangle']: [undefined] and the empty string are
    falsy. *)
Definition shapeOrRectangle (shapeType : option string) : string :=
  match shapeType with
  | Some st => if bool_decide (st = "") then "rectangle" else st
  | None => "rectangle"
  end.

Definition newElement (ty : ElementType) (shapeType : option string)
    (now : Z) (count : nat) : CardElement :=
  {| id := elementIdAt now;
     type := ty;
     content := match ty with
                | text => "New Text"
                | image => ""
                | shape => shapeOrRectangle shapeType
                end;
     x := 50%float;
     y := 50%float;
     width := Some (match ty with text => 200 | _ => 100 end);
     height := Some (match ty with text => 30 | _ => 100 end);
     fontSize := Some 16;
     fontFamily := Some "Inter";
     fontWeight := None;
     fontStyle := None;
     color := Some "#000000";
     backgroundColor := Some (match ty with shape => "#e5e7eb" | _ => "transparent" end);
     rotation := Some 0;
     zIndex := Some (Z.of_nat count + 1) |}.

Definition addElement (ty : ElementType) (shapeType : option string)
    (now : Z) (s : State) : State :=
  let cc := currentContent s in
  let el := newElement ty shapeType now (length (elements cc)) in
  let updatedCard :=
    withSideContent (currentSide s) (card s)
      (withElements cc (elements cc ++ [el])) in
  render (setSelectedElement (Some (id el))
            (assignCard updatedCard (addToHistory (object updatedCard) s))).

(** The [Partial<CardElement>] arguments that the component passes to
    [updateElement]: the drag gives [x] and [y], the properties panel
    [content], [fontSize], [fontWeight], [fontStyle], [color] or
    [backgroundColor].  An absent key is [None]. *)
Record ElementUpdates := {
  upd_content : option string;
  upd_x : option float;
  upd_y : option float;
  upd_fontSize : option Z;
  upd_fontWeight : option string;
  upd_fontStyle : option string;
  upd_color : option string;
  upd_backgroundColor : option string
}.

Definition positionUpdate (newX newY : float) : ElementUpdates :=
  {| upd_content := None; upd_x := Some newX; upd_y := Some newY;
     upd_fontSize := None; upd_fontWeight := None; upd_fontStyle := None;
     upd_color := None; upd_backgroundColor := None |}.

(** A key of the updates overrides an optional field of the element. *)
Definition override {A} (old new : option A) : option A :=
  match new with Some v => Some v | None => old end.

(** [{...el, ...updates}] *)
Definition applyUpdates (el : CardElement) (u : ElementUpdates) : CardElement :=
  {| id := id el;
     type := type el;
     content := default (content el) (upd_content u);
     x := default (x el) (upd_x u);
     y := default (y el) (upd_y u);
     width := width el;
     height := height el;
     fontSize := override (fontSize el) (upd_fontSize u);
     fontFamily := fontFamily el;
     fontWeight := override (fontWeight el) (upd_fontWeight u);
     fontStyle := override (fontStyle el) (upd_fontStyle u);
     color := override (color el) (upd_color u);
     backgroundColor := override (backgroundColor el) (upd_backgroundColor u);
     rotation := rotation el;
     zIndex := zIndex el |}.

(** No state setter is called here, hence no render follows. *)
Definition updateElement (elementId : string) (updates : ElementUpdates)
    (s : State) : State :=
  let cc := currentContent s in
  let updatedElements :=
    (fun el => if bool_decide (id el = elementId)
               then applyUpdates el updates else el) <$> elements cc in
  let updatedCard :=
    withSideContent (currentSide s) (card s) (withElements cc updatedElements) in
  assignCard updatedCard s.

Definition deleteElement (elementId : string) (s : State) : State :=
  let cc := currentContent s in
  let updatedElements := filter (fun el => id el <> elementId) (elements cc) in
  let updatedCard :=
    withSideContent (currentSide s) (card s) (withElements cc updatedElements) in
  render (setSelectedElement None
            (assignCard updatedCard (addToHistory (object updatedCard) s))).

(** [elements.find(el => el.id === elementId)] *)
Definition findElement (elementId : string) (els : list CardElement)
    : option CardElement :=
  snd <$> list_find (fun el => id el = elementId) els.

(** [{...element, id, x: element.x + 20, y: element.y + 20, zIndex}] *)
Definition duplicateOf (element : CardElement) (now : Z) (count : nat)
    : CardElement :=
  {| id := elementIdAt now;
     type := type element;
     content := content element;
     x := PrimFloat.add (x element) 20%float;
     y := PrimFloat.add (y element) 20%float;
     width := width element;
     height := height element;
     fontSize := fontSize element;
     fontFamily := fontFamily element;
     fontWeight := fontWeight element;
     fontStyle := fontStyle element;
     color := color element;
     backgroundColor := backgroundColor element;
     rotation := rotation element;
     zIndex := Some (Z.of_nat count + 1) |}.

Definition duplicateElement (elementId : string) (now : Z) (s : State) : State :=
  let cc := currentContent s in
  match findElement elementId (elements cc) with
  | Some element =>
      let el := duplicateOf element now (length (elements cc)) in
      let updatedCard :=
        withSideContent (currentSide s) (card s)
          (withElements cc (elements cc ++ [el])) in
      render (setSelectedElement (Some (id el))
                (assignCard updatedCard (addToHistory (object updatedCard) s)))
  | None => s
  end.

(** The pointer position relative to the canvas, the two doubles
    [e.clientX - rect.left] and [e.clientY - rect.top], is [None] when
    the canvas has no bounding rectangle.  [setDragOffset] gets a new
    object, so a render follows it; without it a render follows only
    when the selection or the dragging flag changes. *)
Definition handleMouseDown (elementId : string)
    (pointer : option (float * float)) (s : State) : State :=
  let s1 := setIsDragging true (setSelectedElement (Some elementId) s) in
  match findElement elementId (elements (currentContent s)), pointer with
  | Some element, Some (px, py) =>
      render (setDragOffset (PrimFloat.sub px (x element),
                             PrimFloat.sub py (y element)) s1)
  | _, _ =>
      if bool_decide (selectedElement s = Some elementId) && isDragging s
      then s1 else render s1
  end.

(** Truthiness of [selectedElement]: [null] and the empty string are
    falsy. *)
Definition truthySelection (sel : option string) : option string :=
  match sel with
  | Some i => if bool_decide (i = "") then None else Some i
  | None => None
  end.

Definition handleMouseMove (pointer : option (float * float)) (s : State)
    : State :=
  if isDragging s then
    match truthySelection (selectedElement s), pointer with
    | Some sel, Some (px, py) =>
        let newX := PrimFloat.sub px (fst (dragOffset s)) in
        let newY := PrimFloat.sub py (snd (dragOffset s)) in
        updateElement sel (positionUpdate newX newY) s
    | _, _ => s
    end
  else s.

(** [addToHistory(card)] pushes the prop object itself. *)
Definition handleMouseUp (s : State) : State :=
  if isDragging s then
    render (addToHistory the_card (setIsDragging false s))
  else s.

(** The side buttons: [setCurrentSide(side)].  Setting the side that is
    already shown changes no state, and no render follows. *)
Definition switchSide (side : Side) (s : State) : State :=
  if bool_decide (side = currentSide s) then s
  else render (setCurrentSide side s).

(** The events the component reacts to, with the data each handler
    receives from its environment (pointer positions, clock readings). *)
Inductive event :=
  | SwitchSide (side : Side)
  | ClickUndo
  | ClickRedo
  | AddElement (ty : ElementType) (shapeType : option string) (now : Z)
  | UpdateElement (elementId : string) (updates : ElementUpdates)
  | DeleteElement (elementId : string)
  | DuplicateElement (elementId : string) (now : Z)
  | MouseDown (elementId : string) (pointer : option (float * float))
  | MouseMove (pointer : option (float * float))
  | MouseUp.

Definition handle (ev : event) (s : State) : State :=
  match ev with
  | SwitchSide side => switchSide side s
  | ClickUndo => undo s
  | ClickRedo => redo s
  | AddElement ty shapeType now => addElement ty shapeType now s
  | UpdateElement elementId updates => updateElement elementId updates s
  | DeleteElement elementId => deleteElement elementId s
  | DuplicateElement elementId now => duplicateElement elementId now s
  | MouseDown elementId pointer => handleMouseDown elementId pointer s
  | MouseMove pointer => handleMouseMove pointer s
  | MouseUp => handleMouseUp s
  end.

(** The state after a sequence of events, and every state on the way. *)
Definition run (evs : list event) (s : State) : State :=
  foldl (fun st ev => handle ev st) s evs.

Fixpoint trace (evs : list event) (s : State) : list State :=
  match evs with
  | [] => []
  | ev :: evs' => handle ev s :: trace evs' (handle ev s)
  end.

(** The ids on the side that the handlers see, and the id an event
    generates from its clock reading. *)
Definition activeIds (s : State) : list string :=
  id <$> elements (currentContent s).

Definition generatedId (ev : event) (s : State) : option string :=
  match ev with
  | AddElement _ _ now => Some (elementIdAt now)
  | DuplicateElement i now =>
      match findElement i (elements (currentContent s)) with
      | Some _ => Some (elementIdAt now)
      | None => None
      end
  | _ => None
  end.

(** [currentContent] is what the card holds for the current side: the
    state right after a render. *)
Definition rendered (s : State) : Prop :=
  currentContent s = sideContent (currentSide s) (card s).

(** The history invariant: the cursor is a valid index. *)
Definition cursor_valid (s : State) : Prop :=
  (historyIndex s < length (history s))%nat.

(** The events that are element operations. *)
Definition is_element_op (ev : event) : bool :=
  match ev with
  | AddElement _ _ _ | DeleteElement _ | DuplicateElement _ _ => true
  | _ => false
  end.

(** The events whose handler calls [addToHistory] in state [s]. *)
Definition commits (ev : event) (s : State) : bool :=
  match ev with
  | AddElement _ _ _ | DeleteElement _ => true
  | DuplicateElement i _ =>
      bool_decide (is_Some (findElement i (elements (currentContent s))))
  | MouseUp => isDragging s
  | _ => false
  end.

(** Every generated id of a sequence of events is new on the active side
    at the moment it is generated. *)
Fixpoint ids_fresh (evs : list event) (s : State) : Prop :=
  match evs with
  | [] => True
  | ev :: evs' =>
      match generatedId ev s with
      | Some i => i ∉ activeIds s
      | None => True
      end /\ ids_fresh evs' (handle ev s)
  end.


(** [selectedElement ? currentContent.elements.find(...) : null], the
    element whose properties the panel shows. *)
Definition selectedElementData (s : State) : option CardElement :=
  match truthySelection (selectedElement s) with
  | Some i => findElement i (elements (currentContent s))
  | None => None
  end.

Definition otherSide (side : Side) : Side :=
  match side with front => back | back => front end.

(** The events that only move the history cursor. *)
Definition is_history_move (ev : event) : bool :=
  match ev with
  | ClickUndo | ClickRedo => true
  | _ => false
  end.

(** An element carried to another position. *)
Definition movedTo (newX newY : float) (el : CardElement) : CardElement :=
  applyUpdates el (positionUpdate newX newY).

(** Everything of a card but its two sides; [saveCard] sends the
    [title] among these together with both sides. *)
Definition cardMeta (c : Card)
    : string * string * option string * Z * string * string :=
  (card_id c, deck_id c, title c, position c, created_at c, updated_at c).

(** What a commit of [newCard] in state [s] leaves in the history of
    the state [s'] it leads to: the entries up to the cursor of [s], then
    [newCard] as the last entry with the cursor on it, and no redo. *)
Definition committed_from (s s' : State) (newCard : CardRef) : Prop :=
  history s' = take (S (historyIndex s)) (history s) ++ [newCard] /\
  historyIndex s' = S (historyIndex s) /\
  Z.of_nat (historyIndex s') = Z.of_nat (length (history s')) - 1 /\
  drop (S (historyIndex s)) (history s') = [newCard] /\
  canRedo s' = false /\
  redo s' = s'.

End CardEditor.

(** ** Sample data *)

Module Samples.
Import Types.

Definition blank : CardContent :=
  {| elements := []; contentBackgroundColor := None; backgroundImage := None |}.

Definition sampleCard (i : string) : Card :=
  {| card_id := i; deck_id := "deck"; title := None;
     front_content := blank; back_content := blank;
     position := 0; created_at := ""; updated_at := "" |}.

Definition fiveCards : list Card :=
  sampleCard <$> ["c1"; "c2"; "c3"; "c4"; "c5"].

Definition standardDeck : Deck :=
  {| deck_name := "deck"; card_size := size_3x5;
     custom_width := None; custom_height := None |}.

(** A deck of custom cards wider than any paper. *)
Definition wideDeck : Deck :=
  {| deck_name := "deck"; card_size := size_custom;
     custom_width := Some 600; custom_height := Some 100 |}.

Definition frontOnly (deck : Deck) : PrintPreview.PrintSettings :=
  {| PrintPreview.cardSize := card_size deck;
     PrintPreview.settingsCardsPerPage := 6;
     PrintPreview.includeBack := false;
     PrintPreview.paperSize := PrintPreview.letter;
     PrintPreview.orientation := PrintPreview.portrait;
     PrintPreview.margins := PrintPreview.normal |}.

Definition landscapeSettings (deck : Deck) : PrintPreview.PrintSettings :=
  {| PrintPreview.cardSize := card_size deck;
     PrintPreview.settingsCardsPerPage := 6;
     PrintPreview.includeBack := true;
     PrintPreview.paperSize := PrintPreview.letter;
     PrintPreview.orientation := PrintPreview.landscape;
     PrintPreview.margins := PrintPreview.normal |}.

(** An editing session: an element is added, the addition is undone (the
    cursor is then before the last history entry). *)
Definition undoneSession : CardEditor.State :=
  CardEditor.run [CardEditor.AddElement text None 1; CardEditor.ClickUndo]
    (CardEditor.init (sampleCard "c1")).

(** Element operations at distinct clock readings. *)
Definition editScript : list CardEditor.event :=
  [CardEditor.AddElement text None 1;
   CardEditor.DuplicateElement "element-1" 2;
   CardEditor.DeleteElement "element-1";
   CardEditor.AddElement shape (Some "circle") 3].

(** A card with one text element partly left of the canvas. *)
Definition offCanvasLabel : CardElement :=
  {| id := "label"; type := text; content := "Label";
     x := (-10)%float; y := 20%float;
     width := Some 200; height := Some 30; fontSize := Some 16;
     fontFamily := Some "Inter"; fontWeight := None; fontStyle := None;
     color := Some "#000000"; backgroundColor := Some "transparent";
     rotation := Some 0; zIndex := Some 1 |}.

Definition offCanvasCard : Card :=
  {| card_id := "c2"; deck_id := "deck"; title := Some "Labels";
     front_content :=
       {| elements := [offCanvasLabel]; contentBackgroundColor := None;
          backgroundImage := None |};
     back_content := blank;
     position := 1; created_at := ""; updated_at := "" |}.


(** Two additions at the same clock reading. *)
Definition sameInstantScript : list CardEditor.event :=
  [CardEditor.AddElement text None 5; CardEditor.AddElement text None 5].

End Samples.


(** ** Properties of the layout and of the pagination *)

Module PrintPreviewFacts.
Import Types PrintPreview.

(** *** Chunk arithmetic *)

Lemma chunk_count_gt (n k j : nat) :
  (1 <= k)%nat -> (j < chunk_count n k)%nat <-> (j * k < n)%nat.
Proof.
  intros Hk. unfold chunk_count.
  pose proof (Nat.div_mod_eq (n + k - 1) k) as Hd.
  pose proof (Nat.mod_upper_bound (n + k - 1) k ltac:(lia)) as Hm.
  split; intros H; nia.
Qed.

Lemma chunk_count_bounds (n k : nat) :
  (1 <= k)%nat -> (n <= chunk_count n k * k)%nat.
Proof.
  intros Hk.
  destruct (decide (n <= chunk_count n k * k)%nat) as [|Hn]; [done|].
  assert (chunk_count n k < chunk_count n k)%nat; [|lia].
  apply chunk_count_gt; lia.
Qed.

Lemma chunk_count_0 (k : nat) : (1 <= k)%nat -> chunk_count 0 k = 0%nat.
Proof.
  intros Hk. destruct (chunk_count 0 k) as [|c] eqn:E; [done|].
  assert (c < chunk_count 0 k)%nat as H by lia.
  apply chunk_count_gt in H; lia.
Qed.

Section Chunks.
Context {A : Type}.
Implicit Types (l : list A) (k j m : nat).

Lemma chunks_unfold k l :
  chunks k l = chunk_at k l <$> seq 0 (chunk_count (length l) k).
Proof. reflexivity. Qed.

Lemma concat_chunk_prefix k l m :
  concat (chunk_at k l <$> seq 0 m) = take (m * k) l.
Proof.
  induction m as [|m IH]; [done|].
  rewrite seq_S, fmap_app, concat_app, IH. simpl.
  rewrite app_nil_r. unfold chunk_at.
  rewrite take_take_drop. f_equal. lia.
Qed.

Lemma concat_chunks k l : (1 <= k)%nat -> concat (chunks k l) = l.
Proof.
  intros Hk. rewrite chunks_unfold, concat_chunk_prefix.
  apply take_ge, chunk_count_bounds, Hk.
Qed.

Lemma length_chunks k l : length (chunks k l) = chunk_count (length l) k.
Proof. unfold chunks. by rewrite length_fmap, length_seq. Qed.

Lemma chunks_lookup k l j c :
  chunks k l !! j = Some c ->
  (j < chunk_count (length l) k)%nat /\ c = chunk_at k l j.
Proof.
  rewrite chunks_unfold, list_lookup_fmap. intros H.
  destruct (seq 0 (chunk_count (length l) k) !! j) as [i|] eqn:E; [|done].
  apply lookup_seq in E as [-> ?]. simpl in H. by simplify_eq.
Qed.

Lemma length_chunk_at k l j :
  length (chunk_at k l j) = (k `min` (length l - j * k))%nat.
Proof. unfold chunk_at. by rewrite length_take, length_drop. Qed.

Lemma chunks_nil k : (1 <= k)%nat -> chunks k (@nil A) = [].
Proof. intros Hk. unfold chunks. simpl. by rewrite chunk_count_0. Qed.
End Chunks.

(** *** The page loop *)

Lemma slice_chunk {A} (l : list A) (k j : nat) :
  (1 <= k)%nat -> (j * k < length l)%nat ->
  JS.slice l (JS.Int (Z.of_nat (j * k)))
             (JS.add (JS.Int (Z.of_nat (j * k))) (JS.Int (Z.of_nat k)))
  = chunk_at k l j.
Proof.
  intros Hk Hj. unfold JS.slice, chunk_at, JS.add, JS.relative_index.
  destruct (Z.ltb_spec (Z.of_nat (j * k)) 0); [lia|].
  destruct (Z.ltb_spec (Z.of_nat (j * k) + Z.of_nat k) 0); [lia|].
  replace (Z.to_nat (Z.of_nat (j * k) `min` Z.of_nat (length l))) with (j * k)%nat by lia.
  destruct (decide (j * k + k <= length l)%nat).
  - f_equal. lia.
  - rewrite !take_ge; [done| |]; rewrite length_drop; lia.
Qed.

(** With a capacity of [k >= 1] cards, the loop started at the [j]-th
    chunk boundary pushes one page per remaining chunk and returns. *)
Lemma page_loop_chunks side (l : list Card) (k : nat) :
  (1 <= k)%nat ->
  forall m j fuel pages,
    (j + m = chunk_count (length l) k)%nat ->
    (m < fuel)%nat ->
    page_loop fuel side l (JS.Int (Z.of_nat k)) (JS.Int (Z.of_nat (j * k))) pages
    = Returned (pages ++
        ((fun c => {| page_type := side; cards := c |}) <$>
           (chunk_at k l <$> seq j m))).
Proof.
  intros Hk m. induction m as [|m IH]; intros j fuel pages Hjm Hfuel.
  - destruct fuel as [|fuel]; [lia|]. cbn [page_loop JS.ltb seq fmap list_fmap].
    assert (~ (j * k < length l)%nat) as Hge.
    { rewrite <- chunk_count_gt by done. lia. }
    destruct (Z.ltb_spec (Z.of_nat (j * k)) (Z.of_nat (length l))); [lia|].
    by rewrite app_nil_r.
  - destruct fuel as [|fuel]; [lia|]. cbn [page_loop JS.ltb].
    assert (j * k < length l)%nat as Hlt.
    { rewrite <- chunk_count_gt by done. lia. }
    destruct (Z.ltb_spec (Z.of_nat (j * k)) (Z.of_nat (length l))); [|lia].
    rewrite slice_chunk by done.
    replace (JS.add (JS.Int (Z.of_nat (j * k))) (JS.Int (Z.of_nat k)))
      with (JS.Int (Z.of_nat (S j * k))) by (simpl; f_equal; lia).
    rewrite IH by lia.
    by rewrite <- app_assoc.
Qed.

Lemma page_loop_from_start side (l : list Card) (k fuel : nat) pages :
  (1 <= k)%nat -> (length l < fuel)%nat ->
  page_loop fuel side l (JS.Int (Z.of_nat k)) (JS.Int 0) pages
  = Returned (pages ++ chunk_pages side k l).
Proof.
  intros Hk Hfuel.
  assert (chunk_count (length l) k <= length l)%nat as Hc.
  { destruct (decide (chunk_count (length l) k <= length l)%nat) as [|Hn]; [done|].
    assert (length l < chunk_count (length l) k)%nat as H by lia.
    apply chunk_count_gt in H; [nia|done]. }
  change (JS.Int 0) with (JS.Int (Z.of_nat (0 * k))).
  rewrite (page_loop_chunks side l k Hk (chunk_count (length l) k) 0 fuel pages);
    [done|lia|lia].
Qed.

(** With a capacity of zero and at least one card the loop condition
    stays true: every iteration pushes a page without cards. *)
Lemma page_loop_zero_capacity side (l : list Card) fuel pages :
  l <> [] ->
  page_loop fuel side l (JS.Int 0) (JS.Int 0) pages
  = StillLooping (pages ++ replicate fuel {| page_type := side; cards := [] |}).
Proof.
  intros Hl. revert pages. induction fuel as [|fuel IH]; intros pages.
  - simpl. by rewrite app_nil_r.
  - cbn [page_loop JS.ltb].
    destruct (Z.ltb_spec 0 (Z.of_nat (length l))) as [_|H].
    + change (JS.add (JS.Int 0) (JS.Int 0)) with (JS.Int 0).
      rewrite IH. rewrite <- app_assoc. f_equal. f_equal.
      simpl. f_equal. f_equal. unfold JS.slice. simpl. by rewrite Nat.sub_diag.
    + destruct l; [done|simpl in H; lia].
Qed.

(** With an infinite capacity (a custom card dimension of -18 makes the
    divisor zero) the loop pushes one page holding every card and
    returns. *)
Lemma page_loop_infinite_capacity side (l : list Card) fuel pages :
  l <> [] -> (2 <= fuel)%nat ->
  page_loop fuel side l JS.PosInf (JS.Int 0) pages
  = Returned (pages ++ [ {| page_type := side; cards := l |} ]).
Proof.
  intros Hl Hfuel. destruct fuel as [|[|fuel]]; [lia..|].
  cbn [page_loop JS.ltb JS.add].
  destruct (Z.ltb_spec 0 (Z.of_nat (length l))) as [_|H].
  - do 3 f_equal. unfold JS.slice. cbn [JS.relative_index].
    destruct (Z.ltb_spec 0 0); [lia|].
    replace (Z.to_nat (0 `min` Z.of_nat (length l))) with 0%nat by lia.
    rewrite Nat.sub_0_r, drop_0. by rewrite take_ge.
  - destruct l; [done|simpl in H; lia].
Qed.

End PrintPreviewFacts.

Module PrintPreviewClaims.
Import Types PrintPreview PrintPreviewFacts.

(** C4.  With card size 3x5, letter paper and normal margins the card is
    216 by 360, the available area 540 by 720, and the layout is two
    cards per row, one row per page, two cards per page: the floors of
    the available width and height over the card width and height plus
    18, and their product. *)
Theorem calculateLayout_3x5_letter_normal
    (deck : Deck) (n : Z) (b : bool) (o : Orientation) :
  let s := {| cardSize := size_3x5; settingsCardsPerPage := n;
              includeBack := b; paperSize := letter;
              orientation := o; margins := normal |} in
  let cardWidth := dim_width (cardSizes deck (cardSize s)) in
  let cardHeight := dim_height (cardSizes deck (cardSize s)) in
  cardWidth = 216 /\ cardHeight = 360 /\
  availableWidth s = 540 /\ availableHeight s = 720 /\
  cardsPerRow (calculateLayout deck s) = JS.Int 2 /\
  rowsPerPage (calculateLayout deck s) = JS.Int 1 /\
  cardsPerPage (calculateLayout deck s) = JS.Int 2 /\
  cardsPerRow (calculateLayout deck s)
    = JS.floor_div (availableWidth s) (cardWidth + 18) /\
  rowsPerPage (calculateLayout deck s)
    = JS.floor_div (availableHeight s) (cardHeight + 18) /\
  cardsPerPage (calculateLayout deck s)
    = JS.mul (cardsPerRow (calculateLayout deck s))
             (rowsPerPage (calculateLayout deck s)).
Proof. repeat split. Qed.

(** C1 (as the code behaves).  When the layout has no card per row or no
    row per page, so that the capacity is zero cards per page, and there
    is at least one card, [generatePrintPages] does not return: whatever
    the number of iterations granted, it is still in the loop of the
    front pages and has pushed that many pages without cards.  Nothing
    stops the pagination or reports the condition. *)
Theorem generatePrintPages_zero_capacity_loops
    (deck : Deck) (deck_cards : list Card) (s : PrintSettings) (fuel : nat) :
  cardsPerRow (calculateLayout deck s) = JS.Int 0 \/
  rowsPerPage (calculateLayout deck s) = JS.Int 0 ->
  cardsPerPage (calculateLayout deck s) = JS.Int 0 ->
  deck_cards <> [] ->
  generatePrintPages fuel deck deck_cards s
  = StillLooping (replicate fuel {| page_type := front; cards := [] |}).
Proof.
  intros _ Hcap Hcards. unfold generatePrintPages. rewrite Hcap.
  by rewrite page_loop_zero_capacity.
Qed.

Lemma generatePrintPages_zero_capacity_loops_witness :
  cardsPerRow (calculateLayout Samples.wideDeck (Samples.frontOnly Samples.wideDeck))
    = JS.Int 0 /\
  generatePrintPages 3 Samples.wideDeck Samples.fiveCards
    (Samples.frontOnly Samples.wideDeck)
  = StillLooping (replicate 3 {| page_type := front; cards := [] |}).
Proof.
  split; [reflexivity|].
  apply (generatePrintPages_zero_capacity_loops
           Samples.wideDeck Samples.fiveCards (Samples.frontOnly Samples.wideDeck) 3).
  - left. reflexivity.
  - reflexivity.
  - discriminate.
Defined.

(** C5.  With [includeBack] off and a capacity of [k >= 1] cards per
    page, [generatePrintPages] returns one front page per consecutive
    chunk of [k] cards: the pages' cards concatenated are the card list,
    every page holds between 1 and [k] cards, every page but the last
    holds [k]; five cards with [k = 2] give pages of 2, 2 and 1 cards. *)
Theorem generatePrintPages_front_only
    (deck : Deck) (deck_cards : list Card) (s : PrintSettings) (k fuel : nat) :
  includeBack s = false ->
  cardsPerPage (calculateLayout deck s) = JS.Int (Z.of_nat k) ->
  (1 <= k)%nat ->
  (length deck_cards < fuel)%nat ->
  exists pages,
    generatePrintPages fuel deck deck_cards s = Returned pages /\
    pages = chunk_pages front k deck_cards /\
    Forall (fun p => page_type p = front) pages /\
    concat (cards <$> pages) = deck_cards /\
    length pages = chunk_count (length deck_cards) k /\
    (forall j p, pages !! j = Some p ->
       cards p = take k (drop (j * k) deck_cards) /\
       (1 <= length (cards p) <= k)%nat /\
       ((S j < length pages)%nat -> length (cards p) = k)) /\
    (length deck_cards = 5%nat -> k = 2%nat ->
       (length ∘ cards) <$> pages = [2; 2; 1]%nat).
Proof.
  intros Hback Hcap Hk Hfuel.
  exists (chunk_pages front k deck_cards).
  assert (cards <$> chunk_pages front k deck_cards = chunks k deck_cards) as Hcards.
  { unfold chunk_pages. rewrite <- list_fmap_compose. apply list_fmap_id. }
  assert (length (chunk_pages front k deck_cards)
          = chunk_count (length deck_cards) k) as Hlen.
  { unfold chunk_pages. by rewrite length_fmap, length_chunks. }
  split; [|split; [done|split; [|split; [|split; [done|split]]]]].
  - unfold generatePrintPages. rewrite Hcap, Hback.
    by rewrite page_loop_from_start.
  - unfold chunk_pages. apply Forall_fmap, Forall_true. done.
  - rewrite Hcards. by apply concat_chunks.
  - intros j p Hp. unfold chunk_pages in Hp. rewrite list_lookup_fmap in Hp.
    destruct (chunks k deck_cards !! j) as [c|] eqn:Hc; [|done].
    simpl in Hp. simplify_eq. simpl.
    apply chunks_lookup in Hc as [Hj ->].
    pose proof Hj as Hj'. apply chunk_count_gt in Hj'; [|done].
    split; [done|]. rewrite length_chunk_at. split; [lia|].
    rewrite Hlen. intros HS. apply chunk_count_gt in HS; [|done]. lia.
  - intros H5 ->. rewrite list_fmap_compose, Hcards.
    destruct deck_cards as [|c1 [|c2 [|c3 [|c4 [|c5 [|]]]]]]; try done.
Qed.

Lemma generatePrintPages_front_only_witness :
  exists pages,
    generatePrintPages 6 Samples.standardDeck Samples.fiveCards
      (Samples.frontOnly Samples.standardDeck) = Returned pages /\
    (length ∘ cards) <$> pages = [2; 2; 1]%nat.
Proof.
  destruct (generatePrintPages_front_only
              Samples.standardDeck Samples.fiveCards
              (Samples.frontOnly Samples.standardDeck) 2 6)
    as (pages & Hrun & _ & _ & _ & _ & _ & Hsizes).
  - reflexivity.
  - reflexivity.
  - lia.
  - simpl. lia.
  - exists pages. split; [exact Hrun|]. apply Hsizes; reflexivity.
Defined.

(** C6.  With [includeBack] on and a capacity of [k >= 1] cards per
    page, [generatePrintPages] returns all front pages followed by all
    back pages; both runs follow the same chunks, so the i-th back page
    holds the cards of the i-th front page in the same order; five cards
    with [k = 2] give six pages, three front and then three back. *)
Theorem generatePrintPages_with_backs
    (deck : Deck) (deck_cards : list Card) (s : PrintSettings) (k fuel : nat) :
  includeBack s = true ->
  cardsPerPage (calculateLayout deck s) = JS.Int (Z.of_nat k) ->
  (1 <= k)%nat ->
  (length deck_cards < fuel)%nat ->
  exists fronts backs,
    generatePrintPages fuel deck deck_cards s = Returned (fronts ++ backs) /\
    fronts = chunk_pages front k deck_cards /\
    backs = chunk_pages back k deck_cards /\
    Forall (fun p => page_type p = front) fronts /\
    Forall (fun p => page_type p = back) backs /\
    length fronts = chunk_count (length deck_cards) k /\
    length backs = length fronts /\
    cards <$> backs = cards <$> fronts /\
    (forall i pf, fronts !! i = Some pf ->
       exists pb, backs !! i = Some pb /\ cards pb = cards pf) /\
    concat (cards <$> fronts) = deck_cards /\
    (length deck_cards = 5%nat -> k = 2%nat ->
       length (fronts ++ backs) = 6%nat /\
       length fronts = 3%nat /\ length backs = 3%nat).
Proof.
  intros Hback Hcap Hk Hfuel.
  exists (chunk_pages front k deck_cards), (chunk_pages back k deck_cards).
  assert (forall side, cards <$> chunk_pages side k deck_cards
                       = chunks k deck_cards) as Hcards.
  { intros side. unfold chunk_pages. rewrite <- list_fmap_compose.
    apply list_fmap_id. }
  assert (forall side, length (chunk_pages side k deck_cards)
                       = chunk_count (length deck_cards) k) as Hlen.
  { intros side. unfold chunk_pages. by rewrite length_fmap, length_chunks. }
  repeat match goal with |- _ /\ _ => split end; try done.
  - unfold generatePrintPages. rewrite Hcap, Hback.
    rewrite page_loop_from_start by done. simpl.
    by rewrite page_loop_from_start.
  - unfold chunk_pages. by apply Forall_fmap, Forall_true.
  - unfold chunk_pages. by apply Forall_fmap, Forall_true.
  - by rewrite !Hlen.
  - by rewrite !Hcards.
  - intros i pf Hpf. unfold chunk_pages in *.
    rewrite list_lookup_fmap in Hpf. rewrite list_lookup_fmap.
    destruct (chunks k deck_cards !! i) as [c|]; [|done].
    simpl in *. simplify_eq. eauto.
  - rewrite Hcards. by apply concat_chunks.
  - intros H5 ->. rewrite length_app, !Hlen, H5. by compute.
Qed.

Lemma generatePrintPages_with_backs_witness :
  exists fronts backs,
    generatePrintPages 6 Samples.standardDeck Samples.fiveCards
      (initialSettings Samples.standardDeck) = Returned (fronts ++ backs) /\
    length fronts = 3%nat /\ length backs = 3%nat /\
    cards <$> backs = cards <$> fronts.
Proof.
  destruct (generatePrintPages_with_backs
              Samples.standardDeck Samples.fiveCards
              (initialSettings Samples.standardDeck) 2 6)
    as (fronts & backs & Hrun & _ & _ & _ & _ & _ & _ & Hsame & _ & _ & Hfive).
  - reflexivity.
  - reflexivity.
  - lia.
  - simpl. lia.
  - exists fronts, backs. destruct Hfive as (_ & Hf & Hb); [reflexivity..|].
    repeat split; assumption.
Defined.

(** C8.  For the empty card list and a capacity of at least one card per
    page, [generatePrintPages] returns the empty page list: it leaves
    both loops at their first test and signals nothing. *)
Theorem generatePrintPages_no_cards
    (deck : Deck) (s : PrintSettings) (fuel : nat) :
  JS.geb (cardsPerPage (calculateLayout deck s)) (JS.Int 1) = true ->
  (0 < fuel)%nat ->
  generatePrintPages fuel deck [] s = Returned [].
Proof.
  intros _ Hfuel. destruct fuel as [|fuel]; [lia|].
  unfold generatePrintPages. simpl. by destruct (includeBack s).
Qed.

Lemma generatePrintPages_no_cards_witness :
  generatePrintPages 1 Samples.standardDeck []
    (initialSettings Samples.standardDeck) = Returned [].
Proof.
  apply (generatePrintPages_no_cards
           Samples.standardDeck (initialSettings Samples.standardDeck) 1).
  - reflexivity.
  - lia.
Defined.

(** C9.  Two settings that differ at most in their orientation give the
    same layout and the same pages: neither [calculateLayout] nor
    [generatePrintPages] reads the orientation. *)
Theorem orientation_is_ignored
    (deck : Deck) (deck_cards : list Card) (s1 s2 : PrintSettings) (fuel : nat) :
  differ_only_in_orientation s1 s2 ->
  calculateLayout deck s1 = calculateLayout deck s2 /\
  generatePrintPages fuel deck deck_cards s1
  = generatePrintPages fuel deck deck_cards s2.
Proof.
  intros (Hsize & _ & Hback & Hpaper & Hmargins).
  assert (calculateLayout deck s1 = calculateLayout deck s2) as Hlayout.
  { unfold calculateLayout, availableWidth, availableHeight, margin.
    by rewrite Hsize, Hpaper, Hmargins. }
  split; [exact Hlayout|].
  unfold generatePrintPages. by rewrite Hlayout, Hback.
Qed.

Lemma orientation_is_ignored_witness :
  orientation (initialSettings Samples.standardDeck) = portrait /\
  orientation (Samples.landscapeSettings Samples.standardDeck) = landscape /\
  calculateLayout Samples.standardDeck (initialSettings Samples.standardDeck)
  = calculateLayout Samples.standardDeck
      (Samples.landscapeSettings Samples.standardDeck) /\
  generatePrintPages 6 Samples.standardDeck Samples.fiveCards
    (initialSettings Samples.standardDeck)
  = generatePrintPages 6 Samples.standardDeck Samples.fiveCards
      (Samples.landscapeSettings Samples.standardDeck).
Proof.
  split; [reflexivity|]. split; [reflexivity|].
  apply (orientation_is_ignored Samples.standardDeck Samples.fiveCards
           (initialSettings Samples.standardDeck)
           (Samples.landscapeSettings Samples.standardDeck) 6).
  repeat split.
Defined.

End PrintPreviewClaims.

(** ** Properties of the card editor *)

Module CardEditorFacts.
Import Types CardEditor.

(** *** What a commit does to the history *)

Lemma history_addToHistory r s :
  history (addToHistory r s) = take (historyIndex s + 1) (history s) ++ [r].
Proof. reflexivity. Qed.

Lemma historyIndex_addToHistory r s :
  cursor_valid s -> historyIndex (addToHistory r s) = S (historyIndex s).
Proof.
  unfold cursor_valid, addToHistory. simpl. intros H.
  rewrite length_app, length_take. simpl. lia.
Qed.

Lemma addToHistory_other_fields r s :
  card (addToHistory r s) = card s /\
  currentSide (addToHistory r s) = currentSide s /\
  selectedElement (addToHistory r s) = selectedElement s /\
  isDragging (addToHistory r s) = isDragging s /\
  currentContent (addToHistory r s) = currentContent s.
Proof. repeat split. Qed.

Lemma addToHistory_cursor_last r s :
  Z.of_nat (historyIndex (addToHistory r s))
  = Z.of_nat (length (history (addToHistory r s))) - 1.
Proof. unfold addToHistory. simpl. rewrite length_app. simpl. lia. Qed.

(** The history after each committing handler is that of [addToHistory]
    for the object the handler pushes. *)
Lemma commit_history ev s :
  commits ev s = true ->
  exists r,
    history (handle ev s) = history (addToHistory r s) /\
    historyIndex (handle ev s) = historyIndex (addToHistory r s).
Proof.
  destruct ev; simpl; try discriminate; intros Hc.
  - eexists. split; reflexivity.
  - eexists. split; reflexivity.
  - unfold duplicateElement.
    destruct (findElement elementId (elements (currentContent s))) as [el|].
    + eexists. split; reflexivity.
    + apply bool_decide_eq_true in Hc. by destruct Hc.
  - unfold handleMouseUp. rewrite Hc. exists the_card. split; reflexivity.
Qed.

(** *** The cursor stays a valid index *)

Lemma cursor_valid_init c : cursor_valid (init c).
Proof. unfold cursor_valid. simpl. lia. Qed.

Lemma cursor_valid_addToHistory r s : cursor_valid (addToHistory r s).
Proof.
  unfold cursor_valid. pose proof (addToHistory_cursor_last r s). lia.
Qed.

Lemma cursor_valid_congr s s' :
  history s' = history s -> historyIndex s' = historyIndex s ->
  cursor_valid s -> cursor_valid s'.
Proof. unfold cursor_valid. by intros -> ->. Qed.

Lemma assignFrom_history src s :
  history (assignFrom src s) = history s /\
  historyIndex (assignFrom src s) = historyIndex s /\
  currentSide (assignFrom src s) = currentSide s.
Proof. destruct src; repeat split. Qed.

Lemma cursor_valid_commit ev s :
  commits ev s = true -> cursor_valid (handle ev s).
Proof.
  intros Hc. destruct (commit_history ev s Hc) as (r & Hh & Hi).
  eapply cursor_valid_congr; [exact Hh|exact Hi|apply cursor_valid_addToHistory].
Qed.

Lemma cursor_valid_handle ev s : cursor_valid s -> cursor_valid (handle ev s).
Proof.
  intros Hs. destruct (commits ev s) eqn:Hc; [by apply cursor_valid_commit|].
  destruct ev; simpl in *; try discriminate; try exact Hs.
  - cbv [switchSide]. by case_bool_decide.
  - unfold undo. case_bool_decide; [|done].
    unfold cursor_valid in *. simpl.
    destruct (assignFrom_history (history s !! (historyIndex s - 1)%nat)
                (setHistoryIndex (historyIndex s - 1) s)) as (-> & -> & _).
    simpl. lia.
  - unfold redo. case_bool_decide; [|done].
    unfold cursor_valid in *. simpl.
    destruct (assignFrom_history (history s !! (historyIndex s + 1)%nat)
                (setHistoryIndex (historyIndex s + 1) s)) as (-> & -> & _).
    simpl. lia.
  - unfold duplicateElement.
    destruct (findElement elementId (elements (currentContent s))) as [el|]; [|done].
    apply bool_decide_eq_false in Hc. destruct Hc. eauto.
  - unfold handleMouseDown. repeat case_match; exact Hs.
  - unfold handleMouseMove. destruct (isDragging s); [|done].
    destruct (truthySelection (selectedElement s)); [|done].
    destruct pointer as [[px py]|]; exact Hs.
  - unfold handleMouseUp. by rewrite Hc.
Qed.

Lemma cursor_valid_run evs s : cursor_valid s -> cursor_valid (run evs s).
Proof.
  revert s. induction evs as [|ev evs IH]; intros s Hs; [done|].
  apply IH, cursor_valid_handle, Hs.
Qed.

(** Every state of a session satisfies the history invariant
    [0 <= cursor < length]. *)
Lemma cursor_valid_session c evs : cursor_valid (run evs (init c)).
Proof. apply cursor_valid_run, cursor_valid_init. Qed.

(** *** Reading the card back *)

Lemma sideContent_withSideContent side c cc :
  sideContent side (withSideContent side c cc) = cc.
Proof. by destruct side. Qed.

Lemma withSideContent_same side c :
  withSideContent side c (sideContent side c) = c.
Proof. by destruct c, side. Qed.

Lemma withElements_same cc : withElements cc (elements cc) = cc.
Proof. by destruct cc. Qed.

Lemma rendered_render s : rendered (render s).
Proof. reflexivity. Qed.

Lemma rendered_init c : rendered (init c).
Proof. reflexivity. Qed.

(** *** Undo right after a commit *)

Lemma card_undo s :
  (0 < historyIndex s)%nat ->
  card (undo s)
  = match history s !! (historyIndex s - 1)%nat with
    | Some r => deref s r
    | None => card s
    end.
Proof.
  intros H. unfold undo. rewrite bool_decide_eq_true_2 by done.
  by destruct (history s !! (historyIndex s - 1)%nat).
Qed.

(** After a commit, undo assigns from the entry the cursor was on. *)
Lemma card_undo_commit ev s :
  cursor_valid s -> commits ev s = true ->
  exists r, history s !! historyIndex s = Some r /\
            card (undo (handle ev s)) = deref (handle ev s) r.
Proof.
  intros Hs Hc. destruct (commit_history ev s Hc) as (r & Hh & Hi).
  rewrite historyIndex_addToHistory in Hi by done.
  rewrite history_addToHistory in Hh.
  destruct (lookup_lt_is_Some_2 (history s) (historyIndex s) Hs) as [e He].
  exists e. split; [done|].
  rewrite card_undo by lia. rewrite Hi, Hh.
  replace (S (historyIndex s) - 1)%nat with (historyIndex s) by lia.
  rewrite lookup_app_l by (rewrite length_take; unfold cursor_valid in Hs; lia).
  rewrite lookup_take_lt by lia. by rewrite He.
Qed.

(** When the cursor entry is an object of its own, undo after a commit
    brings that object's value back. *)
Lemma undo_commit_object ev s v :
  cursor_valid s -> commits ev s = true ->
  history s !! historyIndex s = Some (object v) ->
  card (undo (handle ev s)) = v.
Proof.
  intros Hs Hc He. destruct (card_undo_commit ev s Hs Hc) as (r & Hr & ->).
  by simplify_eq.
Qed.

(** When the cursor entry is the prop object, undo after a commit assigns
    the card to itself: the commit stays. *)
Lemma undo_commit_alias ev s :
  cursor_valid s -> commits ev s = true ->
  history s !! historyIndex s = Some the_card ->
  card (undo (handle ev s)) = card (handle ev s).
Proof.
  intros Hs Hc He. destruct (card_undo_commit ev s Hs Hc) as (r & Hr & ->).
  by simplify_eq.
Qed.

(** *** Element ids *)

Lemma filter_all {A} (P : A -> Prop) `{!forall a, Decision (P a)} (l : list A) :
  Forall P l -> filter P l = l.
Proof.
  induction 1 as [|a l Ha _ IH]; [done|].
  rewrite filter_cons_True by done. by rewrite IH.
Qed.

Lemma ids_filter (i : string) (els : list CardElement) :
  id <$> filter (fun el => id el <> i) els = filter (fun j => j <> i) (id <$> els).
Proof.
  induction els as [|el els IH]; [done|]. rewrite fmap_cons.
  destruct (decide (id el = i)) as [Heq|Hne].
  - rewrite !filter_cons_False by naive_solver. exact IH.
  - rewrite !filter_cons_True by done. rewrite fmap_cons. by rewrite IH.
Qed.

Lemma currentContent_addElement ty shapeType now s :
  currentContent (addElement ty shapeType now s)
  = withElements (currentContent s)
      (elements (currentContent s) ++
       [newElement ty shapeType now (length (elements (currentContent s)))]).
Proof. apply sideContent_withSideContent. Qed.

Lemma currentContent_deleteElement i s :
  currentContent (deleteElement i s)
  = withElements (currentContent s)
      (filter (fun el => id el <> i) (elements (currentContent s))).
Proof. apply sideContent_withSideContent. Qed.

Lemma currentContent_duplicateElement i now s el :
  findElement i (elements (currentContent s)) = Some el ->
  currentContent (duplicateElement i now s)
  = withElements (currentContent s)
      (elements (currentContent s) ++
       [duplicateOf el now (length (elements (currentContent s)))]).
Proof.
  intros H. unfold duplicateElement. rewrite H.
  apply sideContent_withSideContent.
Qed.

Lemma activeIds_addElement ty shapeType now s :
  activeIds (addElement ty shapeType now s) = activeIds s ++ [elementIdAt now].
Proof.
  unfold activeIds. rewrite currentContent_addElement.
  cbn [elements withElements]. by rewrite fmap_app.
Qed.

Lemma activeIds_deleteElement i s :
  activeIds (deleteElement i s) = filter (fun j => j <> i) (activeIds s).
Proof.
  unfold activeIds. rewrite currentContent_deleteElement.
  cbn [elements withElements]. apply ids_filter.
Qed.

Lemma activeIds_duplicateElement i now s :
  activeIds (duplicateElement i now s)
  = match findElement i (elements (currentContent s)) with
    | Some _ => activeIds s ++ [elementIdAt now]
    | None => activeIds s
    end.
Proof.
  unfold activeIds.
  destruct (findElement i (elements (currentContent s))) as [el|] eqn:E.
  - rewrite (currentContent_duplicateElement i now s el E).
    cbn [elements withElements]. by rewrite fmap_app.
  - unfold duplicateElement. by rewrite E.
Qed.

(** An element operation keeps the ids distinct when the id it generates,
    if any, is new on the active side. *)
Lemma NoDup_element_op ev s :
  is_element_op ev = true ->
  NoDup (activeIds s) ->
  match generatedId ev s with Some i => i ∉ activeIds s | None => True end ->
  NoDup (activeIds (handle ev s)).
Proof.
  destruct ev; simpl; try discriminate; intros _ Hs Hfresh.
  - rewrite activeIds_addElement. apply NoDup_app. split; [done|].
    split; [|apply NoDup_singleton]. intros j Hj ->%list_elem_of_singleton. done.
  - rewrite activeIds_deleteElement. by apply NoDup_filter.
  - rewrite activeIds_duplicateElement.
    destruct (findElement elementId (elements (currentContent s))); [|done].
    apply NoDup_app. split; [done|].
    split; [|apply NoDup_singleton]. intros j Hj ->%list_elem_of_singleton. done.
Qed.

Lemma rendered_element_op ev s :
  is_element_op ev = true -> rendered s -> rendered (handle ev s).
Proof.
  destruct ev; simpl; try discriminate; intros _ Hs; try reflexivity.
  unfold duplicateElement.
  by destruct (findElement elementId (elements (currentContent s))).
Qed.

End CardEditorFacts.

Module CardEditorClaims.
Import Types CardEditor CardEditorFacts.

(** C7.  In a state whose cursor is strictly before the last index, a
    commit (the call [addToHistory], and so every handler that makes it:
    add, delete, duplicate of a present element, end of a drag) cuts the
    history after the cursor, appends the new snapshot and puts the
    cursor on it, the new last index: the entries that redo could reach
    are gone and redo does nothing. *)
Theorem commit_discards_redo_states (s : State) :
  (S (historyIndex s) < length (history s))%nat ->
  (forall newCard, committed_from s (addToHistory newCard s) newCard) /\
  (forall ev, commits ev s = true ->
     exists newCard, committed_from s (handle ev s) newCard) /\
  (forall ev, commits ev s = true ->
     (length (history (handle ev s)) <= length (history s))%nat).
Proof.
  intros Hcursor.
  assert (cursor_valid s) as Hs by (unfold cursor_valid; lia).
  assert (forall s' r,
            history s' = history (addToHistory r s) ->
            historyIndex s' = historyIndex (addToHistory r s) ->
            committed_from s s' r) as Hgen.
  { intros s' r Hh Hi.
    rewrite historyIndex_addToHistory in Hi by done.
    rewrite history_addToHistory, Nat.add_1_r in Hh.
    assert (length (history s') = S (S (historyIndex s))) as Hlen.
    { rewrite Hh, length_app, length_take. cbn [length]. lia. }
    unfold committed_from. repeat split.
    - exact Hh.
    - exact Hi.
    - lia.
    - rewrite Hh, drop_app_length'; [done|]. rewrite length_take. lia.
    - unfold canRedo. rewrite bool_decide_eq_true_2; [done|lia].
    - unfold redo. rewrite bool_decide_eq_false_2; [done|lia]. }
  split; [|split].
  - intros r. by apply Hgen.
  - intros ev Hc. destruct (commit_history ev s Hc) as (r & Hh & Hi).
    exists r. by apply Hgen.
  - intros ev Hc. destruct (commit_history ev s Hc) as (r & -> & _).
    rewrite history_addToHistory, length_app, length_take. cbn [length]. lia.
Qed.

Lemma commit_discards_redo_states_witness :
  canRedo Samples.undoneSession = true /\
  committed_from Samples.undoneSession
    (addToHistory the_card Samples.undoneSession) the_card /\
  exists newCard,
    committed_from Samples.undoneSession
      (handle (AddElement image None 2) Samples.undoneSession) newCard.
Proof.
  destruct (commit_discards_redo_states Samples.undoneSession) as (Hadd & Hev & _).
  - vm_compute. lia.
  - split; [reflexivity|]. split; [apply Hadd|]. apply Hev. reflexivity.
Defined.




(** C3 (as the code behaves).  Two [addElement] calls that read the same
    clock value give their elements the same id: after them the ids of
    the active side, as displayed and as held by the card, are not
    distinct, whatever the side held before. *)
Theorem same_instant_additions_share_an_id
    (ty1 ty2 : ElementType) (shapeType1 shapeType2 : option string)
    (now : Z) (s : State) :
  let s' := addElement ty2 shapeType2 now (addElement ty1 shapeType1 now s) in
  activeIds s' = activeIds s ++ [elementIdAt now; elementIdAt now] /\
  ~ NoDup (activeIds s') /\
  ~ NoDup (id <$> elements (sideContent (currentSide s') (card s'))).
Proof.
  intros s'.
  assert (activeIds s' = activeIds s ++ [elementIdAt now; elementIdAt now]) as Hids.
  { subst s'. rewrite !activeIds_addElement. by rewrite <- app_assoc. }
  assert (~ NoDup (activeIds s')) as Hdup.
  { rewrite Hids. intros [_ [_ H]]%NoDup_app.
    apply NoDup_cons in H as [Hnotin _]. apply Hnotin. by left. }
  split; [exact Hids|]. split; [exact Hdup|]. exact Hdup.
Qed.

(** Stated for whole sequences: distinct ids at the start do not make
    the ids distinct after every step. *)
Lemma same_instant_ids_collide :
  ~ (forall evs s,
       Forall (fun ev => is_element_op ev = true) evs ->
       rendered s ->
       NoDup (activeIds s) ->
       Forall (fun st => NoDup (activeIds st)) (trace evs s)).
Proof.
  intros H.
  specialize (H Samples.sameInstantScript (init (Samples.sampleCard "c1"))).
  assert (Forall (fun st => NoDup (activeIds st))
            (trace Samples.sameInstantScript (init (Samples.sampleCard "c1"))))
    as Htrace.
  { apply H.
    - repeat constructor.
    - reflexivity.
    - apply NoDup_nil_2. }
  unfold Samples.sameInstantScript in Htrace. cbn [trace handle] in Htrace.
  apply Forall_cons in Htrace as [_ Htrace].
  apply Forall_cons in Htrace as [Hdup _].
  rewrite !activeIds_addElement in Hdup.
  apply NoDup_cons in Hdup as [Hnotin _].
  apply Hnotin. by left.
Qed.

(** Where the clock does give new ids the ids stay distinct: along every
    sequence of [addElement], [deleteElement] and [duplicateElement]
    calls in which each generated id ([element-] followed by the clock
    reading) is not yet on the active side, and which starts right after
    a render from a side with distinct ids, the ids of the active side
    are distinct after every step. *)
Theorem element_ops_keep_ids_distinct (evs : list event) (s : State) :
  Forall (fun ev => is_element_op ev = true) evs ->
  rendered s ->
  NoDup (activeIds s) ->
  ids_fresh evs s ->
  Forall (fun st =>
            NoDup (id <$> elements (sideContent (currentSide st) (card st))) /\
            rendered st /\ NoDup (activeIds st))
         (trace evs s).
Proof.
  intros Hops. revert s.
  induction Hops as [|ev evs Hev _ IH]; intros s Hr Hs Hfresh; [constructor|].
  destruct Hfresh as [Hnew Hrest]. cbn [trace].
  assert (rendered (handle ev s)) as Hr' by by apply rendered_element_op.
  assert (NoDup (activeIds (handle ev s))) as Hs' by by apply NoDup_element_op.
  constructor; [|by apply IH].
  split; [|done]. unfold activeIds in Hs'. by rewrite <- Hr'.
Qed.

Lemma element_ops_keep_ids_distinct_witness :
  activeIds (run Samples.editScript (init (Samples.sampleCard "c1")))
    = ["element-2"; "element-3"] /\
  Forall (fun st =>
            NoDup (id <$> elements (sideContent (currentSide st) (card st))) /\
            rendered st /\ NoDup (activeIds st))
         (trace Samples.editScript (init (Samples.sampleCard "c1"))).
Proof.
  split; [reflexivity|].
  apply (element_ops_keep_ids_distinct
           Samples.editScript (init (Samples.sampleCard "c1"))).
  - repeat constructor.
  - reflexivity.
  - apply NoDup_nil_2.
  - repeat split; apply (bool_decide_unpack _); vm_compute; exact I.
Defined.

(** C2 (as the code behaves).  In a fresh session the only history entry
    is the card object itself, which [addElement] then overwrites with the
    updated card; [undo] right after the commit moves the cursor back to
    that entry and assigns the card to itself.  The card keeps the added
    element: the state before the commit is not restored, and the entry
    that stood for it reads as the updated card. *)
Theorem undo_after_first_commit_keeps_the_edit
    (c : Card) (ty : ElementType) (shapeType : option string) (now : Z) :
  let s0 := init c in
  let s1 := addElement ty shapeType now s0 in
  let s2 := undo s1 in
  canUndo s1 = true /\
  historyIndex s2 = 0%nat /\
  card s2 = card s1 /\
  card s2 <> card s0 /\
  elements (front_content (card s2))
    = elements (front_content c)
      ++ [newElement ty shapeType now (length (elements (front_content c)))] /\
  deref s0 <$> history s0 !! 0%nat = Some c /\
  deref s1 <$> history s1 !! 0%nat = Some (card s1).
Proof.
  intros s0 s1 s2.
  assert (elements (front_content (card s2))
          = elements (front_content c)
            ++ [newElement ty shapeType now (length (elements (front_content c)))])
    as Hels by reflexivity.
  repeat match goal with |- _ /\ _ => split end; try reflexivity.
  intros Heq. rewrite Heq in Hels. change (card s0) with c in Hels.
  apply (f_equal length) in Hels. rewrite length_app in Hels.
  cbn [length] in Hels. lia.
Qed.

(** The same at the end of a drag: [handleMouseUp] pushes the card object
    itself, so after undo and redo the card is what undo made it, and the
    moved position is lost. *)
Lemma redo_after_drag_loses_the_move :
  let el := newElement text None 1 0 in
  let s0 := handle (AddElement text None 1) (init (Samples.sampleCard "c1")) in
  let s1 := run [MouseDown "element-1" (Some (60%float, 60%float));
                 MouseMove (Some (80%float, 90%float));
                 MouseUp] s0 in
  let s2 := run [ClickUndo; ClickRedo] s1 in
  (x <$> elements (front_content (card s0))) = [50%float] /\
  (x <$> elements (front_content (card s1))) = [70%float] /\
  history s1 = [the_card; object (card s0); the_card] /\
  historyIndex s2 = historyIndex s1 /\
  (x <$> elements (front_content (card s2))) = [50%float].
Proof. repeat split. Qed.

End CardEditorClaims.

(** ** Further properties of the layout and of the pagination *)

Module PrintPreviewExtras.
Import Types PrintPreview PrintPreviewFacts.

(** *** The page loop in general *)

(** The pages pushed before the loop starts stay in front. *)
Lemma page_loop_acc fuel side (l : list Card) perPage i pages :
  page_loop fuel side l perPage i pages
  = map_outcome (app pages) (page_loop fuel side l perPage i []).
Proof.
  revert i pages. induction fuel as [|fuel IH]; intros i pages.
  - simpl. by rewrite app_nil_r.
  - cbn [page_loop]. destruct (JS.ltb i _).
    + rewrite IH. rewrite (IH _ ([] ++ _)).
      destruct (page_loop fuel side l perPage (JS.add i perPage) []);
        cbn [map_outcome]; by rewrite !app_nil_l, <- app_assoc.
    + simpl. by rewrite app_nil_r.
Qed.

(** The loop for the back pages pushes the pages of the loop for the
    front pages, tagged [back]. *)
Lemma page_loop_retag fuel (l : list Card) perPage i :
  page_loop fuel back l perPage i []
  = map_outcome (fmap (retag back)) (page_loop fuel front l perPage i []).
Proof.
  revert i. induction fuel as [|fuel IH]; intros i; [done|].
  cbn [page_loop]. destruct (JS.ltb i _); [|done].
  rewrite page_loop_acc, (page_loop_acc _ front), IH.
  destruct (page_loop fuel front l perPage (JS.add i perPage) []); simpl; done.
Qed.

(** A step that is not advancing keeps the counter below the number of
    cards: the loop uses up any fuel, one page per iteration. *)
Lemma page_loop_stuck fuel side (l : list Card) perPage i pages :
  l <> [] -> advancing perPage = false -> not_positive i = true ->
  exists more,
    page_loop fuel side l perPage i pages = StillLooping (pages ++ more) /\
    length more = fuel.
Proof.
  intros Hl Hcap. revert i pages.
  induction fuel as [|fuel IH]; intros i pages Hi.
  - exists []. by rewrite app_nil_r.
  - cbn [page_loop].
    assert (JS.ltb i (JS.Int (Z.of_nat (length l))) = true) as ->.
    { destruct l; [done|]. destruct i; try done.
      cbn [not_positive JS.ltb length] in *.
      apply Z.leb_le in Hi. apply Z.ltb_lt. lia. }
    assert (not_positive (JS.add i perPage) = true) as Hi'.
    { destruct i, perPage; try done.
      cbn [not_positive advancing JS.add] in *.
      apply Z.leb_le in Hi. apply Z.ltb_ge in Hcap. apply Z.leb_le. lia. }
    destruct (IH (JS.add i perPage) (pages ++ [ {| page_type := side;
               cards := JS.slice l i (JS.add i perPage) |} ]) Hi')
      as (more & -> & Hlen).
    eexists (_ :: more). rewrite <- app_assoc. split; [reflexivity|].
    simpl. by rewrite Hlen.
Qed.

(** [NaN] as capacity: one page without cards, then the loop ends. *)
Lemma page_loop_nan_capacity side (l : list Card) fuel pages :
  l <> [] -> (2 <= fuel)%nat ->
  page_loop fuel side l JS.NaN (JS.Int 0) pages
  = Returned (pages ++ [ {| page_type := side; cards := [] |} ]).
Proof.
  intros Hl Hfuel. destruct fuel as [|[|fuel]]; [lia..|].
  cbn [page_loop JS.ltb JS.add].
  destruct (Z.ltb_spec 0 (Z.of_nat (length l))) as [_|H].
  - unfold JS.slice. cbn [JS.relative_index]. by rewrite Nat.sub_0_l.
  - destruct l; [done|simpl in H; lia].
Qed.

(** With an advancing capacity the loop returns within [length l + 1]
    tests of its condition. *)
Lemma page_loop_advancing_returns side (l : list Card) perPage fuel pages :
  advancing perPage = true -> (length l < fuel)%nat ->
  exists more, page_loop fuel side l perPage (JS.Int 0) pages
               = Returned (pages ++ more).
Proof.
  intros Hcap Hfuel. destruct l as [|c l].
  { destruct fuel; [simpl in Hfuel; lia|]. exists []. simpl. by rewrite app_nil_r. }
  destruct perPage as [k| | |]; try done.
  - simpl in Hcap. apply Z.ltb_lt in Hcap.
    exists (chunk_pages side (Z.to_nat k) (c :: l)).
    replace (JS.Int k) with (JS.Int (Z.of_nat (Z.to_nat k))) by (f_equal; lia).
    apply page_loop_from_start; lia.
  - eexists. apply page_loop_infinite_capacity; [done|simpl in *; lia].
  - eexists. apply page_loop_nan_capacity; [done|simpl in *; lia].
Qed.

(** Every page a loop pushes carries the loop's side. *)
Lemma page_loop_tags fuel side (l : list Card) perPage i :
  Forall (fun p => page_type p = side)
    (match page_loop fuel side l perPage i [] with
     | Returned ps | StillLooping ps => ps
     end).
Proof.
  revert i. induction fuel as [|fuel IH]; intros i; [constructor|].
  cbn [page_loop]. destruct (JS.ltb i _); [|constructor].
  rewrite page_loop_acc. specialize (IH (JS.add i perPage)).
  destruct (page_loop fuel side l perPage (JS.add i perPage) []);
    cbn [map_outcome]; by constructor.
Qed.

Lemma generatePrintPages_unfold fuel deck (l : list Card) s :
  generatePrintPages fuel deck l s
  = match page_loop fuel front l (cardsPerPage (calculateLayout deck s)) (JS.Int 0) [] with
    | StillLooping ps => StillLooping ps
    | Returned ps =>
        if includeBack s then
          map_outcome (app ps)
            (map_outcome (fmap (retag back))
               (page_loop fuel front l (cardsPerPage (calculateLayout deck s))
                  (JS.Int 0) []))
        else Returned ps
    end.
Proof.
  unfold generatePrintPages.
  destruct (page_loop fuel front l _ (JS.Int 0) []) as [ps|ps] eqn:E; [|done].
  destruct (includeBack s); [|done].
  by rewrite page_loop_acc, page_loop_retag, E.
Qed.

(** *** Termination of the pagination *)

(** For a deck with at least one card, [generatePrintPages] returns
    exactly when the capacity is advancing: at least one card per page,
    or [Infinity] or [NaN].  With a capacity of zero or below it never
    leaves its first loop. *)
Theorem generatePrintPages_returns_iff_advancing
    (deck : Deck) (deck_cards : list Card) (s : PrintSettings) :
  deck_cards <> [] ->
  (exists fuel pages, generatePrintPages fuel deck deck_cards s = Returned pages)
  <-> advancing (cardsPerPage (calculateLayout deck s)) = true.
Proof.
  intros Hcards. split.
  - intros (fuel & pages & Hrun).
    destruct (advancing (cardsPerPage (calculateLayout deck s))) eqn:Hcap; [done|].
    unfold generatePrintPages in Hrun.
    destruct (page_loop_stuck fuel front deck_cards _ (JS.Int 0) [] Hcards Hcap)
      as (more & Hloop & _); [done|].
    by rewrite Hloop in Hrun.
  - intros Hcap. exists (S (length deck_cards)).
    rewrite generatePrintPages_unfold.
    destruct (page_loop_advancing_returns front deck_cards _
                (S (length deck_cards)) [] Hcap) as (more & ->); [lia|].
    destruct (includeBack s); eauto.
Qed.

Lemma generatePrintPages_returns_iff_advancing_witness :
  (exists fuel pages,
     generatePrintPages fuel Samples.standardDeck Samples.fiveCards
       (initialSettings Samples.standardDeck) = Returned pages) /\
  ~ (exists fuel pages,
       generatePrintPages fuel Samples.wideDeck Samples.fiveCards
         (initialSettings Samples.wideDeck) = Returned pages).
Proof.
  split.
  - apply (generatePrintPages_returns_iff_advancing
             Samples.standardDeck Samples.fiveCards
             (initialSettings Samples.standardDeck)); [discriminate|reflexivity].
  - intros H.
    apply (generatePrintPages_returns_iff_advancing
             Samples.wideDeck Samples.fiveCards
             (initialSettings Samples.wideDeck)) in H; [discriminate H|discriminate].
Defined.

(** Without cards both loops end at their first test, whatever the
    capacity, zero included: the result is the empty page list.  (The
    application mounts the preview with [cards={[]}].) *)
Theorem generatePrintPages_empty_deck
    (deck : Deck) (s : PrintSettings) (fuel : nat) :
  (0 < fuel)%nat ->
  generatePrintPages fuel deck [] s = Returned [].
Proof.
  intros Hfuel. destruct fuel as [|fuel]; [lia|].
  unfold generatePrintPages. simpl. by destruct (includeBack s).
Qed.

Lemma generatePrintPages_empty_deck_witness :
  cardsPerPage (calculateLayout Samples.wideDeck (initialSettings Samples.wideDeck))
    = JS.Int 0 /\
  generatePrintPages 1 Samples.wideDeck [] (initialSettings Samples.wideDeck)
    = Returned [].
Proof.
  split; [reflexivity|].
  apply (generatePrintPages_empty_deck Samples.wideDeck
           (initialSettings Samples.wideDeck) 1). lia.
Defined.

(** Switching "Include back sides" on keeps the front pages and appends
    the same pages tagged [back], for every capacity with which the
    pagination returns. *)
Theorem includeBack_appends_back_copies
    (deck : Deck) (deck_cards : list Card) (s : PrintSettings)
    (fuel : nat) (fronts : list Page) :
  generatePrintPages fuel deck deck_cards (setIncludeBack false s) = Returned fronts ->
  generatePrintPages fuel deck deck_cards (setIncludeBack true s)
    = Returned (fronts ++ (retag back <$> fronts)) /\
  Forall (fun p => page_type p = front) fronts.
Proof.
  rewrite !generatePrintPages_unfold. cbn [includeBack setIncludeBack].
  change (calculateLayout deck (setIncludeBack false s)) with (calculateLayout deck s).
  change (calculateLayout deck (setIncludeBack true s)) with (calculateLayout deck s).
  pose proof (page_loop_tags fuel front deck_cards
                (cardsPerPage (calculateLayout deck s)) (JS.Int 0)) as Htags.
  destruct (page_loop fuel front deck_cards _ (JS.Int 0) []) as [ps|ps]; [|done].
  intros [= <-]. done.
Qed.

Lemma includeBack_appends_back_copies_witness :
  exists fronts,
    generatePrintPages 6 Samples.standardDeck Samples.fiveCards
      (setIncludeBack false (initialSettings Samples.standardDeck)) = Returned fronts /\
    length fronts = 3%nat /\
    generatePrintPages 6 Samples.standardDeck Samples.fiveCards
      (setIncludeBack true (initialSettings Samples.standardDeck))
    = Returned (fronts ++ (retag back <$> fronts)).
Proof.
  eexists. split; [reflexivity|]. split; [reflexivity|].
  eapply (includeBack_appends_back_copies Samples.standardDeck Samples.fiveCards
            (initialSettings Samples.standardDeck) 6).
  reflexivity.
Defined.

(** *** The layout arithmetic *)

Lemma availableWidth_positive s : 523 <= availableWidth s.
Proof.
  unfold availableWidth, margin.
  destruct (paperSize s), (margins s); simpl; lia.
Qed.

Lemma availableHeight_positive s : 720 <= availableHeight s.
Proof.
  unfold availableHeight, margin.
  destruct (paperSize s), (margins s); simpl; lia.
Qed.

Lemma floor_div_positive (a b : Z) :
  0 <= a -> 0 < b ->
  exists q, JS.floor_div a b = JS.Int q /\ 0 <= q /\ q * b <= a < (q + 1) * b.
Proof.
  intros Ha Hb. exists (a / b). unfold JS.floor_div.
  destruct (Z.eqb_spec b 0); [lia|]. split; [done|].
  pose proof (Z.div_mod a b ltac:(lia)).
  pose proof (Z.mod_pos_bound a b Hb).
  split; [apply Z.div_pos; lia|nia].
Qed.

(** For a card of positive width and height plus spacing, the layout is
    finite, and it is the largest that fits: the cards of a row with
    their 18 points of spacing each take at most the available width and
    one card more would not fit; the same for the rows. *)
Theorem layout_is_largest_fit (deck : Deck) (s : PrintSettings) :
  let cardWidth := dim_width (cardSizes deck (cardSize s)) in
  let cardHeight := dim_height (cardSizes deck (cardSize s)) in
  0 < cardWidth + 18 -> 0 < cardHeight + 18 ->
  exists perRow rows,
    cardsPerRow (calculateLayout deck s) = JS.Int perRow /\
    rowsPerPage (calculateLayout deck s) = JS.Int rows /\
    cardsPerPage (calculateLayout deck s) = JS.Int (perRow * rows) /\
    0 <= perRow /\ 0 <= rows /\
    perRow * (cardWidth + 18) <= availableWidth s < (perRow + 1) * (cardWidth + 18) /\
    rows * (cardHeight + 18) <= availableHeight s < (rows + 1) * (cardHeight + 18).
Proof.
  intros cw ch Hw Hh.
  pose proof (availableWidth_positive s). pose proof (availableHeight_positive s).
  destruct (floor_div_positive (availableWidth s) (cw + 18)) as (c & Hc & ? & ?);
    [lia|done|].
  destruct (floor_div_positive (availableHeight s) (ch + 18)) as (r & Hr & ? & ?);
    [lia|done|].
  exists c, r. unfold calculateLayout. cbn [cardsPerRow rowsPerPage cardsPerPage].
  fold cw ch. rewrite Hc, Hr. done.
Qed.

Lemma layout_is_largest_fit_witness :
  exists perRow rows,
    cardsPerPage (calculateLayout Samples.wideDeck (initialSettings Samples.wideDeck))
      = JS.Int (perRow * rows) /\
    perRow * 618 <= 540 < (perRow + 1) * 618 /\
    rows * 118 <= 720 < (rows + 1) * 118.
Proof.
  destruct (layout_is_largest_fit Samples.wideDeck (initialSettings Samples.wideDeck))
    as (c & r & _ & _ & Hcap & _ & _ & Hc & Hr).
  - reflexivity.
  - reflexivity.
  - exists c, r. split; [exact Hcap|]. split; [exact Hc|exact Hr].
Defined.

(** For such a card the capacity is zero exactly when the card plus its
    18 points of spacing is wider or higher than the available area: a
    card as wide as the available width itself already gets no place. *)
Theorem zero_capacity_iff_card_exceeds_area (deck : Deck) (s : PrintSettings) :
  let cardWidth := dim_width (cardSizes deck (cardSize s)) in
  let cardHeight := dim_height (cardSizes deck (cardSize s)) in
  0 < cardWidth + 18 -> 0 < cardHeight + 18 ->
  cardsPerPage (calculateLayout deck s) = JS.Int 0
  <-> availableWidth s < cardWidth + 18 \/ availableHeight s < cardHeight + 18.
Proof.
  intros cw ch Hw Hh.
  destruct (layout_is_largest_fit deck s Hw Hh)
    as (c & r & _ & _ & -> & Hc0 & Hr0 & Hc & Hr).
  fold cw ch in Hc, Hr. split.
  - intros [= Hzero]. apply Z.eq_mul_0 in Hzero as [-> | ->]; [left|right]; lia.
  - intros [Hlt|Hlt]; f_equal.
    + assert (c = 0) as -> by nia. lia.
    + assert (r = 0) as -> by nia. lia.
Qed.

Lemma zero_capacity_iff_card_exceeds_area_witness :
  let deck := {| deck_name := "deck"; card_size := size_custom;
                 custom_width := Some 540; custom_height := Some 100 |} in
  availableWidth (initialSettings deck) = 540 /\
  cardsPerPage (calculateLayout deck (initialSettings deck)) = JS.Int 0.
Proof.
  intros deck. split; [reflexivity|].
  apply (zero_capacity_iff_card_exceeds_area deck (initialSettings deck)).
  - reflexivity.
  - reflexivity.
  - left. reflexivity.
Defined.

(** Each built-in card size fits every paper size with either margin:
    one or two cards per row, one or two rows, so between one and four
    cards per page (the settings' own entry of 6 plays no part), and the
    pagination returns for every deck. *)
Theorem builtin_sizes_always_fit
    (deck : Deck) (deck_cards : list Card) (s : PrintSettings) (fuel : nat) :
  cardSize s <> size_custom ->
  (length deck_cards < fuel)%nat ->
  (exists perRow rows,
     cardsPerRow (calculateLayout deck s) = JS.Int perRow /\
     rowsPerPage (calculateLayout deck s) = JS.Int rows /\
     cardsPerPage (calculateLayout deck s) = JS.Int (perRow * rows) /\
     1 <= perRow <= 2 /\ 1 <= rows <= 2) /\
  exists pages, generatePrintPages fuel deck deck_cards s = Returned pages.
Proof.
  intros Hsize Hfuel.
  assert (exists perRow rows,
     cardsPerRow (calculateLayout deck s) = JS.Int perRow /\
     rowsPerPage (calculateLayout deck s) = JS.Int rows /\
     cardsPerPage (calculateLayout deck s) = JS.Int (perRow * rows) /\
     1 <= perRow <= 2 /\ 1 <= rows <= 2) as Hlayout.
  { destruct s as [cs n b ps o m]. cbn [cardSize] in Hsize.
    destruct cs; [| | |done]; destruct ps, m;
      (exists 1, 1; repeat split; lia) ||
      (exists 1, 2; repeat split; lia) ||
      (exists 2, 1; repeat split; lia) ||
      (exists 2, 2; repeat split; lia). }
  split; [exact Hlayout|].
  destruct Hlayout as (c & r & _ & _ & Hcap & Hc & Hr).
  rewrite generatePrintPages_unfold.
  destruct (page_loop_advancing_returns front deck_cards
              (cardsPerPage (calculateLayout deck s)) fuel []) as (more & ->);
    [|done|].
  - rewrite Hcap. cbn [advancing]. apply Z.ltb_lt. nia.
  - destruct (includeBack s); eauto.
Qed.

Lemma builtin_sizes_always_fit_witness :
  exists pages,
    generatePrintPages 6 Samples.standardDeck Samples.fiveCards
      (Samples.landscapeSettings Samples.standardDeck) = Returned pages.
Proof.
  apply (builtin_sizes_always_fit Samples.standardDeck Samples.fiveCards
           (Samples.landscapeSettings Samples.standardDeck) 6).
  - discriminate.
  - simpl. lia.
Defined.

(** A custom deck whose width and height are missing or zero is laid
    out and paginated as a 3x5 deck: [||] replaces both by 216 and 360. *)
Theorem custom_without_dimensions_is_3x5
    (deck : Deck) (deck_cards : list Card) (fuel : nat)
    (n : Z) (b : bool) (p : PaperSize) (o : Orientation) (m : Margins) :
  let settings := fun size =>
    {| cardSize := size; settingsCardsPerPage := n; includeBack := b;
       paperSize := p; orientation := o; margins := m |} in
  (custom_width deck = None \/ custom_width deck = Some 0) ->
  (custom_height deck = None \/ custom_height deck = Some 0) ->
  calculateLayout deck (settings size_custom)
    = calculateLayout deck (settings size_3x5) /\
  generatePrintPages fuel deck deck_cards (settings size_custom)
    = generatePrintPages fuel deck deck_cards (settings size_3x5).
Proof.
  intros settings Hw Hh.
  assert (calculateLayout deck (settings size_custom)
          = calculateLayout deck (settings size_3x5)) as Hlayout.
  { unfold calculateLayout, cardSizes, settings. cbn [cardSize].
    by destruct Hw as [-> | ->], Hh as [-> | ->]. }
  split; [exact Hlayout|]. unfold generatePrintPages. by rewrite Hlayout.
Qed.

Lemma custom_without_dimensions_is_3x5_witness :
  let deck := {| deck_name := "deck"; card_size := size_custom;
                 custom_width := Some 0; custom_height := None |} in
  cardsPerPage (calculateLayout deck (initialSettings deck)) = JS.Int 2.
Proof.
  intros deck.
  destruct (custom_without_dimensions_is_3x5 deck [] 0 6 true letter portrait normal)
    as [Hlayout _].
  - right. reflexivity.
  - left. reflexivity.
  - unfold initialSettings. cbn [card_size deck]. rewrite Hlayout. reflexivity.
Defined.

(** Narrow margins never lower the capacity: for a card of positive
    width and height plus spacing, the cards per page with narrow margins
    are at least those with normal margins. *)
Theorem narrow_margins_never_reduce_capacity (deck : Deck) (s : PrintSettings) :
  0 < dim_width (cardSizes deck (cardSize s)) + 18 ->
  0 < dim_height (cardSizes deck (cardSize s)) + 18 ->
  exists k_normal k_narrow,
    cardsPerPage (calculateLayout deck (setMargins normal s)) = JS.Int k_normal /\
    cardsPerPage (calculateLayout deck (setMargins narrow s)) = JS.Int k_narrow /\
    0 <= k_normal <= k_narrow.
Proof.
  intros Hw Hh.
  destruct (layout_is_largest_fit deck (setMargins normal s) Hw Hh)
    as (c1 & r1 & _ & _ & H1 & ? & ? & Hc1 & Hr1).
  destruct (layout_is_largest_fit deck (setMargins narrow s) Hw Hh)
    as (c2 & r2 & _ & _ & H2 & ? & ? & Hc2 & Hr2).
  exists (c1 * r1), (c2 * r2). split; [exact H1|]. split; [exact H2|].
  cbn [cardSize setMargins] in *.
  assert (availableWidth (setMargins narrow s)
          = availableWidth (setMargins normal s) + 36) as Hwid
    by (unfold availableWidth, margin; cbn [margins paperSize setMargins]; lia).
  assert (availableHeight (setMargins narrow s)
          = availableHeight (setMargins normal s) + 36) as Hhei
    by (unfold availableHeight, margin; cbn [margins paperSize setMargins]; lia).
  assert (c1 <= c2) by nia. assert (r1 <= r2) by nia. nia.
Qed.

Lemma narrow_margins_never_reduce_capacity_witness :
  exists k_normal k_narrow,
    cardsPerPage (calculateLayout Samples.standardDeck
      (setMargins normal (initialSettings Samples.standardDeck))) = JS.Int k_normal /\
    cardsPerPage (calculateLayout Samples.standardDeck
      (setMargins narrow (initialSettings Samples.standardDeck))) = JS.Int k_narrow /\
    0 <= k_normal <= k_narrow.
Proof.
  apply (narrow_margins_never_reduce_capacity Samples.standardDeck
           (initialSettings Samples.standardDeck)); reflexivity.
Defined.

(** *** Page headings *)

(** With back sides included the heading number is half the page's
    position in the whole list, while the list holds all front pages and
    then all back pages: the i-th front page shows [i / 2 + 1], and a
    front page and the back page with the same cards show the same
    number only when one page per side is all there is. *)
Theorem heading_numbers_with_backs
    (deck : Deck) (deck_cards : list Card) (s : PrintSettings) (k fuel : nat) :
  includeBack s = true ->
  cardsPerPage (calculateLayout deck s) = JS.Int (Z.of_nat k) ->
  (1 <= k)%nat ->
  (length deck_cards < fuel)%nat ->
  exists pages n,
    generatePrintPages fuel deck deck_cards s = Returned pages /\
    n = chunk_count (length deck_cards) k /\
    length pages = (2 * n)%nat /\
    forall i, (i < n)%nat ->
      exists pf pb,
        pages !! i = Some pf /\ pages !! (n + i)%nat = Some pb /\
        pageTitle pf = "Front Sides" /\ pageTitle pb = "Back Sides" /\
        cards pb = cards pf /\
        pageNumber s i = Z.of_nat i / 2 + 1 /\
        (pageNumber s (n + i) = pageNumber s i <-> n = 1%nat).
Proof.
  intros Hback Hcap Hk Hfuel.
  exists (chunk_pages front k deck_cards ++ chunk_pages back k deck_cards),
         (chunk_count (length deck_cards) k).
  assert (forall side, length (chunk_pages side k deck_cards)
                       = chunk_count (length deck_cards) k) as Hlen.
  { intros side. unfold chunk_pages. by rewrite length_fmap, length_chunks. }
  split; [|split; [done|split]].
  - unfold generatePrintPages. rewrite Hcap, Hback.
    rewrite page_loop_from_start by done. cbn [app].
    by rewrite page_loop_from_start.
  - rewrite length_app, !Hlen. lia.
  - intros i Hi.
    destruct (lookup_lt_is_Some_2 (chunks k deck_cards) i) as [c Hc].
    { by rewrite length_chunks. }
    exists {| page_type := front; cards := c |}, {| page_type := back; cards := c |}.
    split; [|split; [|split; [done|split; [done|split; [done|]]]]].
    + rewrite lookup_app_l by (rewrite Hlen; lia).
      unfold chunk_pages. by rewrite list_lookup_fmap, Hc.
    + rewrite lookup_app_r by (rewrite Hlen; lia).
      rewrite Hlen. replace (chunk_count (length deck_cards) k + i
                             - chunk_count (length deck_cards) k)%nat with i by lia.
      unfold chunk_pages. by rewrite list_lookup_fmap, Hc.
    + unfold pageNumber. rewrite Hback. split; [done|].
      rewrite Nat2Z.inj_add. split; intros H; Z.div_mod_to_equations; lia.
Qed.

Lemma heading_numbers_with_backs_witness :
  exists pages,
    generatePrintPages 6 Samples.standardDeck Samples.fiveCards
      (initialSettings Samples.standardDeck) = Returned pages /\
    pageTitle <$> pages
      = ["Front Sides"; "Front Sides"; "Front Sides";
         "Back Sides"; "Back Sides"; "Back Sides"] /\
    pageNumber (initialSettings Samples.standardDeck) <$> seq 0 6
      = [1; 1; 2; 2; 3; 3].
Proof.
  destruct (heading_numbers_with_backs Samples.standardDeck Samples.fiveCards
              (initialSettings Samples.standardDeck) 2 6)
    as (pages & n & Hrun & _).
  - reflexivity.
  - reflexivity.
  - lia.
  - simpl. lia.
  - exists pages. split; [exact Hrun|].
    injection Hrun as <-. split; reflexivity.
Defined.

End PrintPreviewExtras.

(** ** Further properties of the card editor *)

Module CardEditorExtras.
Import Types CardEditor CardEditorFacts.

(** *** Which events touch the history *)

Lemma history_not_commit ev s :
  commits ev s = false -> history (handle ev s) = history s.
Proof.
  destruct ev; cbn [commits handle]; try discriminate; intros Hc; try reflexivity.
  - cbv [switchSide]. by case_bool_decide.
  - unfold undo. case_bool_decide; [|done]. cbn [history render].
    by destruct (assignFrom_history (history s !! (historyIndex s - 1)%nat)
                   (setHistoryIndex (historyIndex s - 1) s)) as (-> & _).
  - unfold redo. case_bool_decide; [|done]. cbn [history render].
    by destruct (assignFrom_history (history s !! (historyIndex s + 1)%nat)
                   (setHistoryIndex (historyIndex s + 1) s)) as (-> & _).
  - unfold duplicateElement.
    destruct (findElement elementId (elements (currentContent s))); [|done].
    apply bool_decide_eq_false in Hc. destruct Hc. eauto.
  - unfold handleMouseDown. by repeat case_match.
  - unfold handleMouseMove. destruct (isDragging s); [|done].
    destruct (truthySelection (selectedElement s)); [|done].
    by destruct pointer as [[px py]|].
  - unfold handleMouseUp. by rewrite Hc.
Qed.

Lemma historyIndex_not_commit ev s :
  commits ev s = false -> is_history_move ev = false ->
  historyIndex (handle ev s) = historyIndex s.
Proof.
  destruct ev; cbn [commits handle is_history_move]; try discriminate;
    intros Hc _; try reflexivity.
  - cbv [switchSide]. by case_bool_decide.
  - unfold duplicateElement.
    destruct (findElement elementId (elements (currentContent s))); [|done].
    apply bool_decide_eq_false in Hc. destruct Hc. eauto.
  - unfold handleMouseDown. by repeat case_match.
  - unfold handleMouseMove. destruct (isDragging s); [|done].
    destruct (truthySelection (selectedElement s)); [|done].
    by destruct pointer as [[px py]|].
  - unfold handleMouseUp. by rewrite Hc.
Qed.

Lemma history_commit ev s :
  commits ev s = true ->
  exists r, history (handle ev s) = take (S (historyIndex s)) (history s) ++ [r].
Proof.
  intros Hc. destruct (commit_history ev s Hc) as (r & -> & _).
  exists r. by rewrite history_addToHistory, Nat.add_1_r.
Qed.

(** The history grows by at most one entry per event, and only the
    events that commit change it at all. *)
Theorem history_changes_only_by_commits (ev : event) (s : State) :
  cursor_valid s ->
  (length (history (handle ev s)) <= S (length (history s)))%nat /\
  (commits ev s = false -> history (handle ev s) = history s) /\
  (commits ev s = true ->
     length (history (handle ev s)) = S (S (historyIndex s)) /\
     take (S (historyIndex s)) (history (handle ev s))
       = take (S (historyIndex s)) (history s)).
Proof.
  intros Hs. unfold cursor_valid in Hs.
  destruct (commits ev s) eqn:Hc.
  - destruct (history_commit ev s Hc) as (r & ->).
    rewrite length_app, length_take. cbn [length].
    split; [lia|]. split; [done|]. intros _. split; [lia|].
    rewrite take_app_length'; [done|]. rewrite length_take. lia.
  - rewrite history_not_commit by done. split; [lia|]. by split.
Qed.

Lemma history_changes_only_by_commits_witness :
  let s := handle (AddElement text None 1) (init (Samples.sampleCard "c1")) in
  history (handle (UpdateElement "element-1" (positionUpdate 3 4)) s) = history s /\
  length (history (handle (DeleteElement "element-1") s)) = 3%nat.
Proof.
  intros s.
  destruct (history_changes_only_by_commits
              (UpdateElement "element-1" (positionUpdate 3 4)) s)
    as (_ & Hkeep & _); [unfold cursor_valid; vm_compute; lia|].
  destruct (history_changes_only_by_commits (DeleteElement "element-1") s)
    as (_ & _ & Hgrow); [unfold cursor_valid; vm_compute; lia|].
  split; [apply Hkeep; reflexivity|]. apply Hgrow. reflexivity.
Defined.

(** *** The first history entry *)

Lemma first_entry_handle ev s :
  cursor_valid s -> history s !! 0%nat = Some the_card ->
  history (handle ev s) !! 0%nat = Some the_card.
Proof.
  intros Hs H0. destruct (commits ev s) eqn:Hc.
  - destruct (history_commit ev s Hc) as (r & ->).
    unfold cursor_valid in Hs.
    rewrite lookup_app_l by (rewrite length_take; lia).
    by rewrite lookup_take_lt by lia.
  - by rewrite history_not_commit.
Qed.

(** In every state of a session the cursor is a valid index and the
    first history entry is the card object itself, never a copy of the
    card the session started with. *)
Theorem session_first_entry_is_the_card (c : Card) (evs : list event) :
  let s := run evs (init c) in
  cursor_valid s /\ history s !! 0%nat = Some the_card /\
  deref s <$> history s !! 0%nat = Some (card s).
Proof.
  cbn zeta.
  assert (forall s, cursor_valid s -> history s !! 0%nat = Some the_card ->
            cursor_valid (run evs s) /\ history (run evs s) !! 0%nat = Some the_card)
    as Hrun.
  { induction evs as [|ev evs IH]; intros s Hs H0; [done|].
    apply IH; [by apply cursor_valid_handle|by apply first_entry_handle]. }
  destruct (Hrun (init c)) as [Hs H0]; [apply cursor_valid_init|done|].
  split; [done|]. split; [done|]. by rewrite H0.
Qed.

(** Undoing down to the first entry leaves the card as it is: in a
    session, undo from cursor 1 moves the cursor to 0, leaves the card
    unchanged, and undo is then disabled. *)
Theorem undo_to_first_entry_keeps_card (c : Card) (evs : list event) :
  let s := run evs (init c) in
  historyIndex s = 1%nat ->
  historyIndex (undo s) = 0%nat /\ card (undo s) = card s /\
  canUndo (undo s) = false.
Proof.
  intros s Hidx.
  destruct (session_first_entry_is_the_card c evs) as (_ & H0 & _). fold s in H0.
  unfold undo. rewrite Hidx. cbn [bool_decide]. rewrite bool_decide_eq_true_2 by lia.
  cbn [Nat.sub]. rewrite H0. done.
Qed.

Lemma undo_to_first_entry_keeps_card_witness :
  let c := Samples.sampleCard "c1" in
  let s := run [AddElement text None 1] (init c) in
  card (undo s) = card s /\ card (undo s) <> c.
Proof.
  intros c s.
  destruct (undo_to_first_entry_keeps_card c [AddElement text None 1])
    as (_ & Hcard & _); [reflexivity|].
  split; [exact Hcard|]. discriminate.
Defined.

(** *** Undo and redo *)

(** The undo and redo buttons are disabled exactly when their handler
    would do nothing; an enabled one moves the cursor by one and leaves
    the history entries alone. *)
Theorem undo_redo_follow_their_buttons (s : State) :
  cursor_valid s ->
  (canUndo s = false -> undo s = s) /\
  (canRedo s = false -> redo s = s) /\
  (canUndo s = true ->
     historyIndex (undo s) = (historyIndex s - 1)%nat /\
     history (undo s) = history s /\ cursor_valid (undo s)) /\
  (canRedo s = true ->
     historyIndex (redo s) = S (historyIndex s) /\
     history (redo s) = history s /\ cursor_valid (redo s)).
Proof.
  intros Hs. unfold cursor_valid in Hs. unfold canUndo, canRedo, undo, redo.
  repeat split.
  - intros H. apply negb_false_iff, bool_decide_eq_true in H.
    rewrite bool_decide_eq_false_2; [done|lia].
  - intros H. apply negb_false_iff, bool_decide_eq_true in H.
    rewrite bool_decide_eq_false_2; [done|lia].
  - apply negb_true_iff, bool_decide_eq_false in H.
    rewrite bool_decide_eq_true_2 by lia. cbn [historyIndex render].
    by destruct (assignFrom_history (history s !! (historyIndex s - 1)%nat)
                   (setHistoryIndex (historyIndex s - 1) s)) as (_ & -> & _).
  - apply negb_true_iff, bool_decide_eq_false in H.
    rewrite bool_decide_eq_true_2 by lia. cbn [history render].
    by destruct (assignFrom_history (history s !! (historyIndex s - 1)%nat)
                   (setHistoryIndex (historyIndex s - 1) s)) as (-> & _).
  - apply negb_true_iff, bool_decide_eq_false in H.
    change (cursor_valid (handle ClickUndo s)). by apply cursor_valid_handle.
  - apply negb_true_iff, bool_decide_eq_false in H.
    rewrite bool_decide_eq_true_2 by lia. cbn [historyIndex render].
    destruct (assignFrom_history (history s !! (historyIndex s + 1)%nat)
                (setHistoryIndex (historyIndex s + 1) s)) as (_ & -> & _).
    cbn [historyIndex setHistoryIndex]. lia.
  - apply negb_true_iff, bool_decide_eq_false in H.
    rewrite bool_decide_eq_true_2 by lia. cbn [history render].
    by destruct (assignFrom_history (history s !! (historyIndex s + 1)%nat)
                   (setHistoryIndex (historyIndex s + 1) s)) as (-> & _).
  - change (cursor_valid (handle ClickRedo s)). by apply cursor_valid_handle.
Qed.

Lemma undo_redo_follow_their_buttons_witness :
  undo (init (Samples.sampleCard "c1")) = init (Samples.sampleCard "c1") /\
  redo (init (Samples.sampleCard "c1")) = init (Samples.sampleCard "c1") /\
  historyIndex (redo Samples.undoneSession) = 1%nat.
Proof.
  destruct (undo_redo_follow_their_buttons (init (Samples.sampleCard "c1")))
    as (Hu & Hr & _); [apply cursor_valid_init|].
  destruct (undo_redo_follow_their_buttons Samples.undoneSession)
    as (_ & _ & _ & Hredo); [unfold cursor_valid; vm_compute; lia|].
  split; [apply Hu; reflexivity|]. split; [apply Hr; reflexivity|].
  apply Hredo. reflexivity.
Defined.

Lemma card_redo s :
  (S (historyIndex s) < length (history s))%nat ->
  card (redo s)
  = match history s !! S (historyIndex s) with
    | Some r => deref s r
    | None => card s
    end.
Proof.
  intros H. unfold redo. rewrite bool_decide_eq_true_2 by lia.
  rewrite Nat.add_1_r. by destruct (history s !! S (historyIndex s)).
Qed.

(** Redo after undo puts the cursor back, and when the entry there is
    an object of its own the card takes that object's value again. *)
Theorem redo_after_undo (s : State) (v : Card) :
  cursor_valid s ->
  canUndo s = true ->
  history s !! historyIndex s = Some (object v) ->
  historyIndex (redo (undo s)) = historyIndex s /\
  history (redo (undo s)) = history s /\
  card (redo (undo s)) = v.
Proof.
  intros Hs Hcan He.
  destruct (undo_redo_follow_their_buttons s Hs) as (_ & _ & Hu & _).
  destruct (Hu Hcan) as (Hidx & Hhist & Hvalid).
  apply negb_true_iff, bool_decide_eq_false in Hcan. unfold cursor_valid in Hs.
  assert (S (historyIndex (undo s)) = historyIndex s) as HS by lia.
  assert (canRedo (undo s) = true) as Hcan'.
  { unfold canRedo. rewrite Hhist. apply negb_true_iff, bool_decide_eq_false. lia. }
  destruct (undo_redo_follow_their_buttons (undo s) Hvalid) as (_ & _ & _ & Hr).
  destruct (Hr Hcan') as (Hidx' & Hhist' & _).
  split; [lia|]. split; [congruence|].
  rewrite card_redo by (rewrite Hhist; lia).
  by rewrite Hhist, HS, He.
Qed.

Lemma redo_after_undo_witness :
  let s := run [AddElement text None 1; AddElement image None 2]
             (init (Samples.sampleCard "c1")) in
  historyIndex s = 2%nat /\ card (redo (undo s)) = card s.
Proof.
  intros s. split; [reflexivity|].
  destruct (redo_after_undo s (card s)) as (_ & _ & Hcard).
  - unfold cursor_valid. vm_compute. lia.
  - reflexivity.
  - reflexivity.
  - exact Hcard.
Defined.

(** After an element operation the cursor is on an object holding the
    card's value. *)
Lemma element_commit_cursor_entry ev s :
  cursor_valid s -> is_element_op ev = true -> commits ev s = true ->
  history (handle ev s) !! historyIndex (handle ev s)
  = Some (object (card (handle ev s))).
Proof.
  intros Hs Hop Hc.
  assert (forall r s', history s' = history (addToHistory r s) ->
            historyIndex s' = historyIndex (addToHistory r s) ->
            history s' !! historyIndex s' = Some r) as Hlast.
  { intros r s' -> ->. rewrite historyIndex_addToHistory, history_addToHistory by done.
    unfold cursor_valid in Hs.
    rewrite lookup_app_r by (rewrite length_take; lia).
    rewrite length_take.
    by replace (S (historyIndex s) - (historyIndex s + 1) `min` length (history s))%nat
      with 0%nat by lia. }
  destruct ev; try discriminate; cbn [handle commits] in *.
  - by apply Hlast.
  - by apply Hlast.
  - unfold duplicateElement in *.
    destruct (findElement elementId (elements (currentContent s))); [|done].
    by apply Hlast.
Qed.

(** Undo right after a commit restores the card when the commit before
    was an element operation: of two commits in a row the second is
    undone exactly. *)
Theorem undo_restores_after_element_commit (s : State) (ev1 ev2 : event) :
  cursor_valid s ->
  is_element_op ev1 = true ->
  commits ev1 s = true ->
  commits ev2 (handle ev1 s) = true ->
  card (undo (handle ev2 (handle ev1 s))) = card (handle ev1 s).
Proof.
  intros Hs Hop Hc1 Hc2.
  apply undo_commit_object; [by apply cursor_valid_handle|done|].
  by apply element_commit_cursor_entry.
Qed.

Lemma undo_restores_after_element_commit_witness :
  let s := init (Samples.sampleCard "c1") in
  let s1 := handle (AddElement text None 1) s in
  let s2 := handle (DeleteElement "element-1") s1 in
  card s2 <> card s1 /\ card (undo s2) = card s1.
Proof.
  intros s s1 s2. split; [discriminate|].
  apply (undo_restores_after_element_commit s (AddElement text None 1)
           (DeleteElement "element-1")).
  - apply cursor_valid_init.
  - reflexivity.
  - reflexivity.
  - reflexivity.
Defined.

(** *** What the events leave untouched *)

Lemma withSideContent_other side c cc :
  sideContent (otherSide side) (withSideContent side c cc)
  = sideContent (otherSide side) c.
Proof. by destruct side. Qed.

Lemma cardMeta_withSideContent side c cc :
  cardMeta (withSideContent side c cc) = cardMeta c.
Proof. reflexivity. Qed.

(** The card after an event that is not a history move is the card
    before, or the card before with a new content for the current side. *)
Lemma card_handle_cases ev s :
  is_history_move ev = false ->
  card (handle ev s) = card s \/
  exists cc, card (handle ev s) = withSideContent (currentSide s) (card s) cc.
Proof.
  destruct ev; cbn [is_history_move handle]; try discriminate; intros _.
  - left. cbv [switchSide]. by case_bool_decide.
  - right. eexists. reflexivity.
  - right. eexists. reflexivity.
  - right. eexists. reflexivity.
  - unfold duplicateElement.
    destruct (findElement elementId (elements (currentContent s)));
      [right; eexists; reflexivity|by left].
  - left. unfold handleMouseDown. by repeat case_match.
  - unfold handleMouseMove. destruct (isDragging s); [|by left].
    destruct (truthySelection (selectedElement s)); [|by left].
    destruct pointer as [[px py]|]; [right; eexists; reflexivity|by left].
  - left. unfold handleMouseUp. by destruct (isDragging s).
Qed.

(** No event other than undo and redo touches the side that is not
    shown, nor the card's id, deck, title, position and dates. *)
Theorem events_keep_other_side_and_metadata (ev : event) (s : State) :
  is_history_move ev = false ->
  sideContent (otherSide (currentSide s)) (card (handle ev s))
    = sideContent (otherSide (currentSide s)) (card s) /\
  cardMeta (card (handle ev s)) = cardMeta (card s).
Proof.
  intros Hev. destruct (card_handle_cases ev s Hev) as [-> | (cc & ->)]; [done|].
  by rewrite withSideContent_other.
Qed.

Lemma events_keep_other_side_and_metadata_witness :
  let s := handle (SwitchSide back) (init (Samples.sampleCard "c1")) in
  let s' := handle (AddElement text None 1) s in
  elements (back_content (card s')) <> [] /\
  front_content (card s') = front_content (card s) /\
  title (card s') = title (card s).
Proof.
  intros s s'.
  destruct (events_keep_other_side_and_metadata (AddElement text None 1) s)
    as [Hside Hmeta]; [reflexivity|].
  split; [discriminate|]. split; [exact Hside|].
  exact (f_equal (fun m => m.1.1.1.2) Hmeta).
Defined.

(** What a commit pushes: the card object itself, or an object that is
    the card with a new content for the current side. *)
Lemma commit_pushes ev s :
  commits ev s = true ->
  exists r,
    history (handle ev s) = history (addToHistory r s) /\
    (r = the_card \/
     exists cc, r = object (withSideContent (currentSide s) (card s) cc)).
Proof.
  destruct ev; cbn [commits handle]; try discriminate; intros Hc.
  - eexists. split; [reflexivity|]. right. eexists. reflexivity.
  - eexists. split; [reflexivity|]. right. eexists. reflexivity.
  - unfold duplicateElement.
    destruct (findElement elementId (elements (currentContent s))) as [el|].
    + eexists. split; [reflexivity|]. right. eexists. reflexivity.
    + apply bool_decide_eq_true in Hc. by destruct Hc.
  - unfold handleMouseUp. rewrite Hc. exists the_card. split; [reflexivity|by left].
Qed.

Lemma cardMeta_handle ev s c :
  cardMeta (card s) = c ->
  Forall (fun r => cardMeta (deref s r) = c) (history s) ->
  cardMeta (card (handle ev s)) = c /\
  Forall (fun r => cardMeta (deref (handle ev s) r) = c) (history (handle ev s)).
Proof.
  intros Hcard Hhist.
  assert (forall s', cardMeta (card s') = c ->
            Forall (fun r => cardMeta (deref s r) = c) (history s') ->
            Forall (fun r => cardMeta (deref s' r) = c) (history s')) as Hre.
  { intros s' Hc' H. eapply Forall_impl; [exact H|].
    intros [|v]; cbn [deref]; [by rewrite Hc', Hcard|done]. }
  assert (forall src, cardMeta (card (assignFrom (history s !! src)
                                        (setHistoryIndex src s))) = c) as Hassign.
  { intros src. destruct (history s !! src) as [r|] eqn:E; cbn [assignFrom]; [|done].
    cbn [card assignCard]. rewrite Forall_forall in Hhist.
    destruct r; cbn [deref card setHistoryIndex]; [done|].
    apply (Hhist (object value)). by eapply list_elem_of_lookup_2. }
  destruct (is_history_move ev) eqn:Hmove.
  - destruct ev; try discriminate; cbn [handle].
    + unfold undo. case_bool_decide; [|done].
      assert (cardMeta (card (render (assignFrom (history s !! (historyIndex s - 1)%nat)
                (setHistoryIndex (historyIndex s - 1) s)))) = c) as Hc' by apply Hassign.
      split; [exact Hc'|]. apply Hre; [exact Hc'|]. cbn [history render].
      by destruct (assignFrom_history (history s !! (historyIndex s - 1)%nat)
                     (setHistoryIndex (historyIndex s - 1) s)) as (-> & _).
    + unfold redo. case_bool_decide; [|done].
      assert (cardMeta (card (render (assignFrom (history s !! (historyIndex s + 1)%nat)
                (setHistoryIndex (historyIndex s + 1) s)))) = c) as Hc' by apply Hassign.
      split; [exact Hc'|]. apply Hre; [exact Hc'|]. cbn [history render].
      by destruct (assignFrom_history (history s !! (historyIndex s + 1)%nat)
                     (setHistoryIndex (historyIndex s + 1) s)) as (-> & _).
  - destruct (events_keep_other_side_and_metadata ev s Hmove) as [_ Hmeta].
    assert (cardMeta (card (handle ev s)) = c) as Hc' by congruence.
    split; [exact Hc'|]. apply Hre; [exact Hc'|].
    destruct (commits ev s) eqn:Hcommit.
    + destruct (commit_pushes ev s Hcommit) as (r & Hh & Hr).
      rewrite Hh, history_addToHistory.
      apply Forall_app. split; [by apply Forall_take|].
      apply Forall_singleton.
      destruct Hr as [-> | (cc & ->)]; cbn [deref]; [done|].
      by rewrite cardMeta_withSideContent.
    + by rewrite history_not_commit.
Qed.

(** Throughout a session the card keeps the id, deck, title, position
    and dates it was opened with, whatever the events: nothing the editor
    offers, the title field included, changes the title that [saveCard]
    sends. *)
Theorem session_keeps_metadata (c : Card) (evs : list event) :
  cardMeta (card (run evs (init c))) = cardMeta c /\
  title (card (run evs (init c))) = title c.
Proof.
  assert (forall s, cardMeta (card s) = cardMeta c ->
            Forall (fun r => cardMeta (deref s r) = cardMeta c) (history s) ->
            cardMeta (card (run evs s)) = cardMeta c) as Hrun.
  { induction evs as [|ev evs IH]; intros s Hc Hh; [done|].
    destruct (cardMeta_handle ev s (cardMeta c) Hc Hh). by apply IH. }
  assert (cardMeta (card (run evs (init c))) = cardMeta c) as Hmeta.
  { apply Hrun; [done|]. by apply Forall_singleton. }
  split; [exact Hmeta|]. exact (f_equal (fun m => m.1.1.1.2) Hmeta).
Qed.

(** *** Updating and dragging *)

Lemma withSideContent_twice side c cc1 cc2 :
  withSideContent side (withSideContent side c cc1) cc2 = withSideContent side c cc2.
Proof. by destruct side. Qed.

Lemma ids_update (i : string) (u : ElementUpdates) (els : list CardElement) :
  id <$> ((fun el => if bool_decide (id el = i) then applyUpdates el u else el) <$> els)
  = id <$> els.
Proof.
  rewrite <- list_fmap_compose. apply list_fmap_ext.
  intros _ el _. cbn. by case_bool_decide.
Qed.

(** [updateElement] keeps the ids of the side's elements and their
    order, and is no step of the history: entries, cursor and selection
    stay.  For an id that is on no element it leaves the card as it is
    (in a state right after a render). *)
Theorem updateElement_keeps_ids_and_history
    (elementId : string) (updates : ElementUpdates) (s : State) :
  let s' := updateElement elementId updates s in
  id <$> elements (sideContent (currentSide s') (card s')) = activeIds s /\
  history s' = history s /\ historyIndex s' = historyIndex s /\
  selectedElement s' = selectedElement s /\
  (rendered s -> elementId ∉ activeIds s -> card s' = card s).
Proof.
  intros s'. subst s'. unfold updateElement.
  cbn [card currentSide history historyIndex selectedElement assignCard].
  rewrite sideContent_withSideContent. cbn [elements withElements].
  split; [apply ids_update|]. repeat split.
  intros Hr Habsent.
  assert (((fun el => if bool_decide (id el = elementId)
                      then applyUpdates el updates else el)
             <$> elements (currentContent s)) = elements (currentContent s)) as ->.
  { rewrite <- (list_fmap_id (elements (currentContent s))) at 2.
    apply list_fmap_ext. intros j el Hel. cbn.
    rewrite bool_decide_eq_false_2; [done|]. intros Heq. apply Habsent.
    unfold activeIds. apply list_elem_of_fmap. exists el.
    split; [done|]. by eapply list_elem_of_lookup_2. }
  rewrite withElements_same, Hr. apply withSideContent_same.
Qed.

(** Without a render in between, a second [updateElement] starts from
    the same [currentContent] as the first and overwrites its result:
    only the last update shows.  In a drag this makes the last pointer
    position the only one that counts. *)
Theorem second_update_discards_first
    (i1 i2 : string) (u1 u2 : ElementUpdates) (p1 : option (float * float))
    (p2 : float * float) (s : State) :
  updateElement i2 u2 (updateElement i1 u1 s) = updateElement i2 u2 s /\
  handleMouseMove (Some p2) (handleMouseMove p1 s) = handleMouseMove (Some p2) s.
Proof.
  assert (forall j1 j2 v1 v2,
            updateElement j2 v2 (updateElement j1 v1 s) = updateElement j2 v2 s) as Hupd.
  { intros j1 j2 v1 v2. unfold updateElement.
    cbn [card currentSide currentContent assignCard].
    by rewrite withSideContent_twice. }
  split; [apply Hupd|].
  unfold handleMouseMove at 2.
  destruct (isDragging s) eqn:Hd; [|done].
  destruct (truthySelection (selectedElement s)) as [sel|] eqn:Hsel; [|done].
  destruct p1 as [[px py]|]; [|done].
  unfold handleMouseMove. cbn [isDragging selectedElement dragOffset updateElement assignCard].
  rewrite Hd, Hsel. destruct p2 as [qx qy]. apply Hupd.
Qed.

(** The position a drag gives, in a state right after a render: after
    pressing on an element at pointer position [p0] and moving to [p],
    every element with that id has [x = p.x - (p0.x - el.x)] and
    [y = p.y - (p0.y - el.y)], [el] being the first element with the id
    and the subtractions those of doubles, done in this order; the other
    elements and the history are untouched.  (This is the position plus
    the pointer's displacement only up to rounding.) *)
Theorem drag_position
    (i : string) (el : CardElement) (px0 py0 px py : float) (s : State) :
  rendered s ->
  i <> "" ->
  findElement i (elements (currentContent s)) = Some el ->
  let s' := handleMouseMove (Some (px, py))
              (handleMouseDown i (Some (px0, py0)) s) in
  elements (sideContent (currentSide s) (card s'))
    = (fun e => if bool_decide (id e = i)
                then movedTo (PrimFloat.sub px (PrimFloat.sub px0 (x el)))
                             (PrimFloat.sub py (PrimFloat.sub py0 (y el))) e
                else e)
        <$> elements (currentContent s) /\
  history s' = history s /\ historyIndex s' = historyIndex s /\
  isDragging s' = true /\ selectedElement s' = Some i.
Proof.
  intros Hr Hi Hfind s'. subst s'.
  unfold handleMouseDown. rewrite Hfind.
  unfold handleMouseMove.
  cbn [isDragging selectedElement dragOffset render setDragOffset
       setIsDragging setSelectedElement truthySelection].
  rewrite bool_decide_eq_false_2 by done.
  unfold updateElement.
  cbn [card currentSide currentContent history historyIndex isDragging
       selectedElement assignCard render setDragOffset setIsDragging
       setSelectedElement fst snd].
  rewrite sideContent_withSideContent. cbn [elements withElements].
  rewrite <- Hr. repeat split.
Qed.

(** A press and a move to the same pointer position, the canvas being
    a tenth of a pixel off the viewport's edge ([0x1.999999999999ap-4]
    is the double 0.1): the element at -10 ends at
    [-0x1.3ffffffffffffp+3], which prints as -9.999999999999998. *)
Lemma drag_position_witness :
  let s := init Samples.offCanvasCard in
  let tenth := 0x1.999999999999ap-4%float in
  let p := (PrimFloat.sub 7 tenth, PrimFloat.sub 60 tenth) in
  let s' := handleMouseMove (Some p) (handleMouseDown "label" (Some p) s) in
  x <$> elements (front_content (card s)) = [(-10)%float] /\
  x <$> elements (front_content (card s')) = [(-0x1.3ffffffffffffp+3)%float] /\
  history s' = history s.
Proof.
  intros s tenth p s'.
  destruct (drag_position "label" Samples.offCanvasLabel
              (fst p) (snd p) (fst p) (snd p) s) as (Hels & Hhist & _).
  - reflexivity.
  - discriminate.
  - reflexivity.
  - split; [reflexivity|]. split; [|exact Hhist].
    exact (f_equal (fmap x) Hels).
Defined.

(** A whole gesture, press, any pointer moves, release, adds exactly
    one history entry after the cursor entry, the card object itself,
    and drops the entries redo could reach; a click without any move
    does so too, though it changes nothing on the card. *)
Theorem gesture_adds_one_entry
    (i : string) (p : option (float * float))
    (moves : list (option (float * float))) (s : State) :
  cursor_valid s ->
  let s' := handleMouseUp (run (MouseMove <$> moves) (handleMouseDown i p s)) in
  history s' = take (S (historyIndex s)) (history s) ++ [the_card] /\
  historyIndex s' = S (historyIndex s) /\
  isDragging s' = false /\
  canRedo s' = false /\
  (moves = [] -> card s' = card s).
Proof.
  intros Hs s'.
  assert (forall st, isDragging st = true -> history st = history s ->
            historyIndex st = historyIndex s ->
            let st' := run (MouseMove <$> moves) st in
            isDragging st' = true /\ history st' = history s /\
            historyIndex st' = historyIndex s) as Hmoves.
  { induction moves as [|m moves IH]; intros st Hd Hh Hi; [done|].
    cbn [fmap list_fmap run foldl]. apply IH.
    - cbn [handle]. unfold handleMouseMove. rewrite Hd.
      destruct (truthySelection (selectedElement st)); [|done].
      by destruct m as [[mx my]|].
    - by rewrite history_not_commit.
    - by rewrite historyIndex_not_commit. }
  destruct (Hmoves (handleMouseDown i p s)) as (Hd & Hh & Hi).
  { unfold handleMouseDown.
    by repeat case_match. }
  { apply (history_not_commit (MouseDown i p)). reflexivity. }
  { apply (historyIndex_not_commit (MouseDown i p)); reflexivity. }
  set (st := run (MouseMove <$> moves) (handleMouseDown i p s)) in *.
  assert (history s' = take (S (historyIndex s)) (history s) ++ [the_card]) as Hhist.
  { subst s'. unfold handleMouseUp. rewrite Hd. cbn [history render].
    rewrite history_addToHistory. cbn [history historyIndex setIsDragging].
    by rewrite Hh, Hi, Nat.add_1_r. }
  assert (historyIndex s' = S (historyIndex s)) as Hidx.
  { subst s'. unfold handleMouseUp. rewrite Hd. cbn [historyIndex render].
    rewrite historyIndex_addToHistory;
      [by cbn [historyIndex setIsDragging]; rewrite Hi|].
    unfold cursor_valid in *. cbn [history historyIndex setIsDragging].
    by rewrite Hh, Hi. }
  split; [exact Hhist|]. split; [exact Hidx|]. split.
  { subst s'. unfold handleMouseUp. by rewrite Hd. }
  split.
  { unfold canRedo. rewrite Hhist, Hidx, length_app, length_take.
    unfold cursor_valid in Hs. cbn [length].
    apply negb_false_iff, bool_decide_eq_true. lia. }
  intros ->. subst s' st. unfold handleMouseUp. rewrite Hd.
  cbn [card render addToHistory setHistoryIndex setHistory setIsDragging
       fmap list_fmap run foldl].
  unfold handleMouseDown.
  by repeat case_match.
Qed.

Lemma gesture_adds_one_entry_witness :
  let s' := handleMouseUp (handleMouseDown "element-1" (Some (60%float, 60%float))
                             Samples.undoneSession) in
  canRedo Samples.undoneSession = true /\
  canRedo s' = false /\ card s' = card Samples.undoneSession.
Proof.
  intros s'.
  destruct (gesture_adds_one_entry "element-1" (Some (60%float, 60%float)) []
              Samples.undoneSession) as (_ & _ & _ & Hredo & Hcard).
  - unfold cursor_valid. vm_compute. lia.
  - split; [reflexivity|]. split; [exact Hredo|]. by apply Hcard.
Defined.

Lemma updateElement_keeps_ids_and_history_witness :
  let s := handle (AddElement text None 1) (init (Samples.sampleCard "c1")) in
  card (updateElement "title" (positionUpdate 0 0) s) = card s /\
  activeIds s = ["element-1"].
Proof.
  intros s.
  destruct (updateElement_keeps_ids_and_history "title" (positionUpdate 0 0) s)
    as (_ & _ & _ & _ & Hcard).
  split; [|reflexivity]. apply Hcard; [reflexivity|].
  apply (bool_decide_unpack _). vm_compute. exact I.
Defined.

(** *** Finding, adding and deleting elements *)

Lemma findElement_cons i e l :
  findElement i (e :: l) = if decide (id e = i) then Some e else findElement i l.
Proof.
  unfold findElement. cbn [list_find]. destruct (decide (id e = i)); [done|].
  by destruct (list_find (fun el => id el = i) l) as [[k el]|].
Qed.

Lemma findElement_None i l : findElement i l = None <-> i ∉ (id <$> l).
Proof.
  induction l as [|e l IH].
  - split; [intros _; apply not_elem_of_nil|done].
  - rewrite findElement_cons, fmap_cons, not_elem_of_cons.
    destruct (decide (id e = i)) as [He|He].
    + split; [discriminate|]. intros [Hne _]. congruence.
    + rewrite IH. split; [intros H; split; [congruence|exact H]|by intros [_ H]].
Qed.

Lemma findElement_snoc i e l :
  findElement i (l ++ [e])
  = match findElement i l with
    | Some old => Some old
    | None => if decide (id e = i) then Some e else None
    end.
Proof.
  induction l as [|e' l IH].
  - cbn [app]. rewrite findElement_cons. by destruct (decide (id e = i)).
  - cbn [app]. rewrite !findElement_cons. by destruct (decide (id e' = i)).
Qed.

Lemma findElement_filter i j l :
  findElement j (filter (fun el => id el <> i) l)
  = if decide (j = i) then None else findElement j l.
Proof.
  induction l as [|e l IH].
  - by destruct (decide (j = i)).
  - destruct (decide (id e = i)) as [He|He].
    + rewrite filter_cons_False by naive_solver. rewrite IH, findElement_cons.
      destruct (decide (j = i)); [done|]. destruct (decide (id e = j)); congruence.
    + rewrite filter_cons_True by done. rewrite !findElement_cons, IH.
      destruct (decide (j = i)); [|done]. destruct (decide (id e = j)); congruence.
Qed.

Lemma elementIdAt_not_empty now : elementIdAt now <> "".
Proof. unfold elementIdAt. cbn. discriminate. Qed.

(** After [addElement] the properties panel shows the element that
    [find] meets first under the generated id: the new element when the
    id is new on the side, otherwise the older element that already has
    that id. *)
Theorem selection_after_addElement
    (ty : ElementType) (shapeType : option string) (now : Z) (s : State) :
  let added := newElement ty shapeType now (length (elements (currentContent s))) in
  selectedElement (addElement ty shapeType now s) = Some (elementIdAt now) /\
  selectedElementData (addElement ty shapeType now s)
    = Some (default added (findElement (elementIdAt now) (elements (currentContent s)))) /\
  (elementIdAt now ∉ activeIds s ->
     selectedElementData (addElement ty shapeType now s) = Some added).
Proof.
  intros added.
  assert (selectedElementData (addElement ty shapeType now s)
    = Some (default added (findElement (elementIdAt now) (elements (currentContent s)))))
    as Hdata.
  { unfold selectedElementData. rewrite currentContent_addElement.
    cbn [selectedElement addElement render setSelectedElement truthySelection
         elements withElements id newElement].
    rewrite bool_decide_eq_false_2 by apply elementIdAt_not_empty.
    rewrite findElement_snoc. fold added.
    destruct (findElement (elementIdAt now) (elements (currentContent s))); [done|].
    cbn [id added newElement]. by rewrite decide_True. }
  split; [done|]. split; [exact Hdata|].
  intros Hfresh. rewrite Hdata.
  by apply findElement_None in Hfresh as ->.
Qed.

Lemma selection_after_addElement_witness :
  let s1 := handle (AddElement text None 5) (init (Samples.sampleCard "c1")) in
  let s2 := handle (AddElement shape (Some "circle") 5) s1 in
  type <$> selectedElementData s1 = Some text /\
  type <$> selectedElementData s2 = Some text /\
  type <$> elements (currentContent s2) = [text; shape].
Proof.
  intros s1 s2.
  destruct (selection_after_addElement text None 5 (init (Samples.sampleCard "c1")))
    as (_ & _ & Hnew).
  destruct (selection_after_addElement shape (Some "circle") 5 s1) as (_ & Hold & _).
  split; [|split; [|reflexivity]].
  - unfold s1. cbn [handle]. rewrite Hnew; [reflexivity|]. apply not_elem_of_nil.
  - unfold s2. cbn [handle]. rewrite Hold. reflexivity.
Defined.

(** [deleteElement] removes every element that has the id and leaves
    the lookup of every other id as it was; nothing is selected
    afterwards. *)
Theorem deleteElement_removes_every_match (i : string) (s : State) :
  let s' := deleteElement i s in
  (i ∉ activeIds s') /\
  findElement i (elements (currentContent s')) = None /\
  (forall j, j <> i ->
     findElement j (elements (currentContent s'))
     = findElement j (elements (currentContent s))) /\
  selectedElementData s' = None /\
  rendered s'.
Proof.
  intros s'. subst s'.
  assert (forall j, findElement j (elements (currentContent (deleteElement i s)))
                    = if decide (j = i) then None
                      else findElement j (elements (currentContent s))) as Hfind.
  { intros j. rewrite currentContent_deleteElement. cbn [elements withElements].
    apply findElement_filter. }
  assert (findElement i (elements (currentContent (deleteElement i s))) = None) as Hi.
  { rewrite Hfind. by rewrite decide_True. }
  split; [by apply findElement_None|]. split; [exact Hi|]. split.
  - intros j Hj. rewrite Hfind. by rewrite decide_False.
  - split; reflexivity.
Qed.

Lemma deleteElement_removes_every_match_witness :
  let s := run Samples.sameInstantScript (init (Samples.sampleCard "c1")) in
  activeIds s = ["element-5"; "element-5"] /\
  activeIds (deleteElement "element-5" s) = [] /\
  findElement "element-7" (elements (currentContent (deleteElement "element-5" s)))
    = findElement "element-7" (elements (currentContent s)).
Proof.
  intros s.
  destruct (deleteElement_removes_every_match "element-5" s) as (_ & _ & Hother & _).
  split; [reflexivity|]. split; [reflexivity|]. apply Hother. discriminate.
Defined.

(** In a state right after a render with a valid cursor, adding or
    duplicating an element and then deleting it by its id gives the card
    back as it was, when the id was new on the side; the two steps stay
    in the history. *)
Theorem delete_undoes_add_and_duplicate (ev : event) (i : string) (s : State) :
  rendered s ->
  cursor_valid s ->
  generatedId ev s = Some i ->
  i ∉ activeIds s ->
  let s' := deleteElement i (handle ev s) in
  card s' = card s /\
  currentContent s' = currentContent s /\
  historyIndex s' = S (S (historyIndex s)) /\
  selectedElement s' = None.
Proof.
  intros Hr Hs Hgen Hfresh s'.
  assert (exists e, id e = i /\
            currentContent (handle ev s)
              = withElements (currentContent s) (elements (currentContent s) ++ [e]) /\
            card (handle ev s)
              = withSideContent (currentSide s) (card s)
                  (withElements (currentContent s) (elements (currentContent s) ++ [e])) /\
            currentSide (handle ev s) = currentSide s /\
            commits ev s = true) as (e & He & Hcc & Hcard & Hside & Hc).
  { destruct ev; cbn [generatedId] in Hgen; try discriminate.
    - injection Hgen as <-. eexists. split; [|split; [apply currentContent_addElement|]].
      + reflexivity.
      + repeat split.
    - destruct (findElement elementId (elements (currentContent s))) as [el|] eqn:E;
        [|discriminate].
      injection Hgen as <-. cbn [handle commits].
      eexists. split; [|split; [by apply currentContent_duplicateElement|]].
      + reflexivity.
      + unfold duplicateElement. rewrite E. repeat split. }
  assert (filter (fun el => id el <> i) (elements (currentContent s) ++ [e])
          = elements (currentContent s)) as Hfilter.
  { rewrite filter_app, filter_cons_False, filter_nil, app_nil_r by naive_solver.
    apply filter_all, Forall_forall. intros el Hel Heq. apply Hfresh.
    unfold activeIds. apply list_elem_of_fmap. by exists el. }
  assert (card s' = card s) as Hcard'.
  { subst s'. unfold deleteElement.
    cbn [card render setSelectedElement assignCard].
    rewrite Hcc, Hcard, Hside. cbn [elements withElements].
    rewrite Hfilter, withSideContent_twice.
    change (withElements (withElements (currentContent s) _) (elements (currentContent s)))
      with (withElements (currentContent s) (elements (currentContent s))).
    rewrite withElements_same, Hr. apply withSideContent_same. }
  split; [exact Hcard'|]. split; [|split; [|reflexivity]].
  - subst s'. rewrite currentContent_deleteElement, Hcc.
    cbn [elements withElements]. rewrite Hfilter.
    change (withElements (withElements (currentContent s) _) (elements (currentContent s)))
      with (withElements (currentContent s) (elements (currentContent s))).
    apply withElements_same.
  - subst s'.
    etransitivity;
      [apply (historyIndex_addToHistory
                (object (card (deleteElement i (handle ev s)))) (handle ev s));
       by apply cursor_valid_handle|].
    f_equal. destruct (commit_history ev s Hc) as (r & _ & ->).
    by apply historyIndex_addToHistory.
Qed.

Lemma delete_undoes_add_and_duplicate_witness :
  let s := handle (AddElement text None 1) (init (Samples.sampleCard "c1")) in
  let s' := deleteElement "element-2" (handle (DuplicateElement "element-1" 2) s) in
  card s' = card s /\ historyIndex s = 1%nat /\ historyIndex s' = 3%nat.
Proof.
  intros s s'.
  destruct (delete_undoes_add_and_duplicate (DuplicateElement "element-1" 2)
              "element-2" s) as (Hcard & _ & Hidx & _).
  - reflexivity.
  - unfold cursor_valid. vm_compute. lia.
  - reflexivity.
  - apply (bool_decide_unpack _). vm_compute. exact I.
  - split; [exact Hcard|]. split; [reflexivity|exact Hidx].
Defined.

End CardEditorExtras.
